(** * GeoAgents-FloodWarning: risk classification and ingestion, verified

    A shallow embedding of [src/core/risk_logic.py],
    [src/data_ingestion/nws_fetch.py] and [src/data_ingestion/usgs_fetch.py].

    Conventions of the embedding:
    - a Python [float] is an exact rational ([Q]); comparisons are the
      decidable comparisons of [Q], and float division raises
      [ZeroDivisionError] on a zero divisor ([py_div]);
    - [None] is [option]'s [None]; [d.get(k)] on a dict is a lookup into an
      optional field or a [gmap];
    - a raised exception is the [Raise] branch of [result]; code that may raise
      is written in the [result] monad with stdpp's [x ← m; k] notation;
    - a dict keyed by gauge identifier is a [gmap string _];
    - a [datetime] is its wall-clock microseconds since the epoch with an
      optional UTC offset, a [timedelta] a number of microseconds; a sum that
      leaves [datetime.min .. datetime.max] and a timedelta beyond 999999999
      days raise [OverflowError];
    - HTTP requests, the clock and the file system are oracles over an
      explicit world state. *)

From Stdlib Require Import QArith Qround ZArith Lia Lqa Ascii String Sorted.
From stdpp Require Import base option list strings gmap fin_maps pretty.

#[local] Set Warnings "-clear-no-such-hyp".

Local Open Scope string_scope.
Local Open Scope Z_scope.

(** ** Exceptions and the result monad *)

Inductive exn : Type :=
  | KeyError (key : string)
  | ValueError (msg : string)
  | TypeError (msg : string)
  | ZeroDivisionError
  | RequestException (msg : string)
  | FileNotFoundError (msg : string)
  | OverflowError (msg : string).

(** [str(exc)] as stored in the error markers. *)
Definition exn_str (e : exn) : string :=
  match e with
  | KeyError k => "'" ++ k ++ "'"
  | ValueError m | TypeError m | RequestException m | FileNotFoundError m
  | OverflowError m => m
  | ZeroDivisionError => "float division by zero"
  end.

Inductive result (A : Type) : Type :=
  | Ok (a : A)
  | Raise (e : exn).
Arguments Ok {A} a.
Arguments Raise {A} e.

#[global] Instance result_ret : MRet result := fun A a => Ok a.
#[global] Instance result_bind : MBind result := fun A B f m =>
  match m with
  | Ok a => f a
  | Raise e => Raise e
  end.

#[global] Instance result_fmap : FMap result := fun A B f m =>
  match m with
  | Ok a => Ok (f a)
  | Raise e => Raise e
  end.

(** [d[k]] on a dict: [KeyError] when the key is missing. *)
Definition getitem {V} (d : gmap string V) (k : string) : result V :=
  match d !! k with
  | Some v => Ok v
  | None => Raise (KeyError k)
  end.

(** ** Float comparisons and division *)

Definition Qleb (a b : Q) : bool := Qle_bool a b.
Definition Qgtb (a b : Q) : bool :=
  match (a ?= b)%Q with Gt => true | _ => false end.
Definition Qis_zero (a : Q) : bool := Qeq_bool a 0.

Definition py_div (a b : Q) : result Q :=
  if Qis_zero b then Raise ZeroDivisionError else Ok (a / b)%Q.

(** ** Documents exchanged between the components *)

(** A scalar of the YAML gauge configuration, and Python's [str()] of it. *)
Inductive yaml_scalar : Type :=
  | YNull
  | YStr (s : string)
  | YInt (n : Z).

Definition py_str (v : yaml_scalar) : string :=
  match v with
  | YNull => "None"
  | YStr s => s
  | YInt n => pretty n
  end.

(** One item of the [gauges] list; a field is [None] when its key is absent. *)
Record gauge_item : Type := {
  g_id : option yaml_scalar;
  g_latitude : option Q;
  g_longitude : option Q;
  g_flood_stage_ft : option Q
}.

(** [str(gauge.get("id"))]: a missing identifier reads as ["None"]. *)
Definition gauge_id_of (gauge : gauge_item) : string :=
  py_str (default YNull (g_id gauge)).

(** Truthiness of a string. *)
Definition nonempty (s : string) : bool :=
  match s with
  | EmptyString => false
  | String _ _ => true
  end.

(** The gauge configuration document; [cfg_gauges] is [None] when the
    document has no [gauges] key. *)
Record config_doc : Type := { cfg_gauges : option (list gauge_item) }.

(** The USGS instantaneous-values payload.  A field read by the code with
    [.get(key, default)] holds that default when the key is absent. *)
Record usgs_sample : Type := {
  sample_value : option string;      (* entry.get("value") *)
  sample_dateTime : option string    (* entry.get("dateTime") *)
}.

Record usgs_series : Type := {
  variableCode : list (option string);  (* variable.variableCode[i].get("value") *)
  values : list (list usgs_sample)      (* values[i].get("value", []) *)
}.

Record usgs_payload : Type := { timeSeries : list usgs_series }.

(** What [fetch_usgs_gauge_data] returns, and an entry of the mapping built by
    [fetch_all_gauges]: a reading or an error marker. *)
Record usgs_reading : Type := {
  u_gauge_id : string;
  u_timestamp : option string;
  u_stage_ft : option Q;
  u_discharge_cfs : option Q;
  u_raw : usgs_payload
}.

Inductive usgs_entry : Type :=
  | UsgsReading (r : usgs_reading)
  | UsgsError (gid : string) (error : string).

(** [obs.get("stage_ft")]. *)
Definition usgs_get_stage_ft (obs : usgs_entry) : option Q :=
  match obs with
  | UsgsReading r => u_stage_ft r
  | UsgsError _ _ => None
  end.

Definition usgs_entry_gauge_id (obs : usgs_entry) : string :=
  match obs with
  | UsgsReading r => u_gauge_id r
  | UsgsError gid _ => gid
  end.

(** A decoded JSON value, as far as [float] tells them apart: a number (an
    int or a float, within the range of a double), a string, a boolean, a
    list or an object.  A JSON [null] is Python's [None]. *)
Inductive json_value : Type :=
  | JNumber (q : Q)
  | JString (s : string)
  | JBool (b : bool)
  | JList
  | JObject.

(** The NWS gridpoint payload: the [values] lists of
    [properties.quantitativePrecipitation] and
    [properties.probabilityOfPrecipitation] ([[]] when a key is absent). *)
Record nws_value : Type := {
  validTime : option string;        (* item.get("validTime") *)
  item_value : option json_value    (* item.get("value") *)
}.

Record nws_payload : Type := {
  quantitativePrecipitation : list nws_value;
  probabilityOfPrecipitation : list nws_value
}.

(** The [properties] of the NWS points payload. *)
Record points_payload : Type := {
  gridId : option string;
  gridX : option Z;
  gridY : option Z;
  forecastGridData : option string
}.

(** An entry of the mapping built by [fetch_all_gauges_forecast]. *)
Record rain_estimate : Type := {
  r_gauge_id : string;
  r_lat : Q;
  r_lon : Q;
  r_rain_72h_mm : Q;
  r_raw : option nws_payload
}.

Inductive rain_entry : Type :=
  | RainEstimate (r : rain_estimate)
  | RainError (gid : string) (error : string).

(** [rain_entry.get("rain_72h_mm")]. *)
Definition rain_get_rain_72h_mm (e : rain_entry) : option Q :=
  match e with
  | RainEstimate r => Some (r_rain_72h_mm r)
  | RainError _ _ => None
  end.

Definition rain_entry_gauge_id (e : rain_entry) : string :=
  match e with
  | RainEstimate r => r_gauge_id r
  | RainError gid _ => gid
  end.

(** ** [src/core/risk_logic.py] *)

Module RiskLogic.

(** [_risk_from_rain]: the band dict is read key by key, in the order the
    code reads it ([medium] first, then [low] or [high]). *)
Definition _risk_from_rain (rain_mm : option Q) (thresholds : gmap string Q)
  : result string :=
  match rain_mm with
  | None => Ok "UNKNOWN"
  | Some rain =>
      medium ← getitem thresholds "medium";
      if Qleb rain medium then
        low ← getitem thresholds "low";
        Ok (if Qleb rain low then "LOW" else "MEDIUM")
      else
        high ← getitem thresholds "high";
        Ok (if Qgtb rain high then "HIGH" else "MEDIUM")
  end.

Definition _risk_from_stage (stage_ft flood_stage_ft : option Q)
    (thresholds : gmap string Q) : result string :=
  match stage_ft, flood_stage_ft with
  | None, _ | _, None => Ok "UNKNOWN"
  | Some stage, Some flood =>
      if Qis_zero flood then Ok "UNKNOWN"
      else
        ratio ← py_div stage flood;
        medium ← getitem thresholds "medium";
        if Qleb ratio medium then
          low ← getitem thresholds "low";
          Ok (if Qleb ratio low then "LOW" else "MEDIUM")
        else
          high ← getitem thresholds "high";
          Ok (if Qgtb ratio high then "HIGH" else "MEDIUM")
  end.

Definition risk_order : list string := ["LOW"; "MEDIUM"; "HIGH"].

(** [l.index(x)]: position of the first occurrence. *)
Fixpoint index_of (x : string) (l : list string) : option nat :=
  match l with
  | [] => None
  | y :: l' => if String.eqb x y then Some O else S <$> index_of x l'
  end.

(** [rank(r) = risk_order.index(r) if r in risk_order else -1]. *)
Definition rank (r : string) : Z :=
  match index_of r risk_order with
  | Some i => Z.of_nat i
  | None => -1
  end.

(** [max(a, b, key=key)]: the first argument wins ties. *)
Definition max_by {A} (key : A → Z) (a b : A) : A :=
  if key a <? key b then b else a.

Record inputs_echo : Type := {
  in_stage_ft : option Q;
  in_flood_stage_ft : option Q;
  in_rain_mm_72h : option Q
}.

Record assessment : Type := {
  gauge_id : string;
  risk : string;
  rain_risk : string;
  stage_risk : string;
  stage_ratio : option Q;
  inputs : inputs_echo
}.

Definition classify_gauge (gid : string) (stage_ft flood_stage_ft rain_mm_72h : option Q)
    (thresholds : gmap string (gmap string Q)) : result assessment :=
  rain_thresholds ← getitem thresholds "rainfall_mm_72h";
  stage_thresholds ← getitem thresholds "river_stage_ratio";
  rain_r ← _risk_from_rain rain_mm_72h rain_thresholds;
  stage_r ← _risk_from_stage stage_ft flood_stage_ft stage_thresholds;
  let combined := max_by rank rain_r stage_r in
  (* [stage_ft / flood_stage_ft if stage_ft is not None and flood_stage_ft
     else None]: [None] and [0.0] are falsy *)
  ratio ← match stage_ft, flood_stage_ft with
          | Some stage, Some flood =>
              if Qis_zero flood then Ok None else Some <$> py_div stage flood
          | _, _ => Ok None
          end;
  Ok {| gauge_id := gid; risk := combined; rain_risk := rain_r;
        stage_risk := stage_r; stage_ratio := ratio;
        inputs := {| in_stage_ft := stage_ft;
                     in_flood_stage_ft := flood_stage_ft;
                     in_rain_mm_72h := rain_mm_72h |} |}.

(** [{str(item["id"]): item.get("flood_stage_ft") for item in
    gauge_config.get("gauges", []) if "id" in item}]: a later item replaces an
    earlier one with the same identifier. *)
Definition flood_stage_lookup (gauge_config : config_doc)
  : gmap string (option Q) :=
  foldl (fun acc item =>
           match g_id item with
           | Some i => <[py_str i := g_flood_stage_ft item]> acc
           | None => acc
           end)
        ∅ (default [] (cfg_gauges gauge_config)).

(** One iteration of the loop of [classify_all]. *)
Definition classify_step (rainfall_data : gmap string rain_entry)
    (lookup_tbl : gmap string (option Q))
    (thresholds : gmap string (gmap string Q))
    (acc : result (gmap string assessment)) (kv : string * usgs_entry)
  : result (gmap string assessment) :=
  results ← acc;
  let flood_stage := mjoin (lookup_tbl !! kv.1) in
  let rain_mm := rainfall_data !! kv.1 ≫= rain_get_rain_72h_mm in
  let stage_ft := usgs_get_stage_ft kv.2 in
  a ← classify_gauge kv.1 stage_ft flood_stage rain_mm thresholds;
  Ok (<[kv.1 := a]> results).

(** [classify_all]: the loop runs over the items of [usgs_data]; the first
    exception raised by [classify_gauge] leaves the function. *)
Definition classify_all (usgs_data : gmap string usgs_entry)
    (rainfall_data : gmap string rain_entry) (gauge_config : config_doc)
    (thresholds : gmap string (gmap string Q))
  : result (gmap string assessment) :=
  foldl (classify_step rainfall_data (flood_stage_lookup gauge_config) thresholds)
        (Ok ∅) (map_to_list usgs_data).

End RiskLogic.

(** ** Dates, durations and strings *)

(** A [datetime]: the wall-clock fields as microseconds since the epoch, and
    the UTC offset in microseconds ([None] for a naive datetime).  A
    [timedelta] is a number of microseconds. *)
Record datetime : Type := { wall_us : Z; tzinfo : option Z }.

Definition timedelta : Type := Z.

Definition us_per_hour : Z := 3600000000.

(** The instant an aware datetime denotes (a naive one is read as UTC). *)
Definition instant (d : datetime) : Z := wall_us d - default 0 (tzinfo d).

Definition aware (d : datetime) : Prop := is_Some (tzinfo d).

(** [d.replace(tzinfo=timezone.utc)]. *)
Definition replace_utc (d : datetime) : datetime :=
  {| wall_us := wall_us d; tzinfo := Some 0 |}.

(** [if d.tzinfo is None: d = d.replace(tzinfo=timezone.utc)]. *)
Definition assume_utc (d : datetime) : datetime :=
  match tzinfo d with
  | None => replace_utc d
  | Some _ => d
  end.

Definition us_per_day : Z := 86400000000.

(** [datetime.min] and [datetime.max] as wall-clock microseconds since the
    epoch: 0001-01-01T00:00:00 and 9999-12-31T23:59:59.999999. *)
Definition datetime_min_us : Z := -719162 * us_per_day.
Definition datetime_max_us : Z := 2932897 * us_per_day - 1.

Definition in_datetime_range (wall : Z) : bool :=
  (datetime_min_us <=? wall) && (wall <=? datetime_max_us).

(** The sum of a datetime and a timedelta, when it is in range. *)
Definition dt_plus (d : datetime) (td : timedelta) : datetime :=
  {| wall_us := wall_us d + td; tzinfo := tzinfo d |}.

(** A datetime object always lies between [datetime.min] and [datetime.max];
    on such a value [d + td] leaves the range when the wall-clock fields of the
    sum do (records that stand for no datetime are left unchecked). *)
Definition overflows (d : datetime) (td : timedelta) : bool :=
  in_datetime_range (wall_us d) && negb (in_datetime_range (wall_us d + td)).

(** [d + td]: [OverflowError] when the result leaves years 1..9999. *)
Definition dt_add (d : datetime) (td : timedelta) : result datetime :=
  if overflows d td then Raise (OverflowError "date value out of range")
  else Ok (dt_plus d td).

Definition naive_aware : exn :=
  TypeError "can't compare offset-naive and offset-aware datetimes".

(** [a < b]: aware datetimes compare as instants, naive ones by their
    fields; a mixed comparison raises. *)
Definition dt_lt (a b : datetime) : result bool :=
  match tzinfo a, tzinfo b with
  | Some oa, Some ob => Ok (wall_us a - oa <? wall_us b - ob)
  | None, None => Ok (wall_us a <? wall_us b)
  | _, _ => Raise naive_aware
  end.

(** [a >= b]. *)
Definition dt_ge (a b : datetime) : result bool := negb <$> dt_lt a b.

(** [a - b]. *)
Definition dt_sub (a b : datetime) : result timedelta :=
  match tzinfo a, tzinfo b with
  | Some oa, Some ob => Ok ((wall_us a - oa) - (wall_us b - ob))
  | None, None => Ok (wall_us a - wall_us b)
  | _, _ => Raise (TypeError "can't subtract offset-naive and offset-aware datetimes")
  end.

(** [max(a, b)] and [min(a, b)]: the first argument wins ties. *)
Definition dt_max (a b : datetime) : result datetime :=
  c ← dt_lt a b; Ok (if c : bool then b else a).

Definition dt_min (a b : datetime) : result datetime :=
  c ← dt_lt b a; Ok (if c : bool then b else a).

(** [td.total_seconds()]. *)
Definition total_seconds (td : timedelta) : Q := (inject_Z td / 1000000)%Q.

(** Rounding to the nearest integer, ties to even, as [timedelta] rounds a
    fractional number of microseconds. *)
Definition Qround_half_even (x : Q) : Z :=
  let f := Qfloor x in
  match (x - inject_Z f ?= 1 # 2)%Q with
  | Lt => f
  | Gt => f + 1
  | Eq => if Z.even f then f else f + 1
  end.

(** [timedelta.min] and [timedelta.max] in microseconds: -999999999 days and
    999999999 days 23:59:59.999999. *)
Definition timedelta_min_us : Z := -999999999 * us_per_day.
Definition timedelta_max_us : Z := 1000000000 * us_per_day - 1.

Definition in_timedelta_range (us : Z) : bool :=
  (timedelta_min_us <=? us) && (us <=? timedelta_max_us).

(** [timedelta(hours=h)]: the number of microseconds is rounded to the nearest
    integer, and [OverflowError] is raised beyond 999999999 days.  (Python
    rounds the product computed in doubles; on a whole number of hours, and on
    the sixtieth of a moderate whole number of minutes, that is the rounding
    of the exact product.) *)
Definition timedelta_hours (h : Q) : result timedelta :=
  let us := Qround_half_even (h * inject_Z us_per_hour)%Q in
  if in_timedelta_range us then Ok us
  else Raise (OverflowError "days; must have magnitude <= 999999999").

(** [s.split(sep)] for a one-character separator. *)
Fixpoint split_on (sep : ascii) (s : string) : list string :=
  match s with
  | EmptyString => [EmptyString]
  | String c s' =>
      if Ascii.eqb c sep then EmptyString :: split_on sep s'
      else match split_on sep s' with
           | h :: t => String c h :: t
           | [] => [String c EmptyString]
           end
  end.

Fixpoint startswith (p s : string) : bool :=
  match p, s with
  | EmptyString, _ => true
  | String a p', String b s' => Ascii.eqb a b && startswith p' s'
  | String _ _, EmptyString => false
  end.

Fixpoint endswith (suf s : string) : bool :=
  String.eqb s suf ||
  match s with
  | EmptyString => false
  | String _ s' => endswith suf s'
  end.

(** [s[i:-j]] for [0 <= i] and [0 < j]. *)
Definition slice_from_to_end (i j : nat) (s : string) : string :=
  substring i (String.length s - j - i) s.

(** [x or y] on optional strings: [None] and [""] are falsy. *)
Definition str_or (x y : option string) : option string :=
  match x with
  | Some EmptyString | None => y
  | Some _ => x
  end.

(** ** A world-passing monad for the code that talks to the outside

    [io A] is a computation that reads and updates the world (network, clock,
    file system) and returns a value or raises. *)

Definition io (World A : Type) : Type := World → World * result A.

Definition io_ret {World A} (a : A) : io World A := fun w => (w, Ok a).

Definition io_bind {World A B} (m : io World A) (k : A → io World B)
  : io World B :=
  fun w => match m w with
           | (w', Ok a) => k a w'
           | (w', Raise e) => (w', Raise e)
           end.

(** Lifting of a pure computation that may raise. *)
Definition io_lift {World A} (r : result A) : io World A := fun w => (w, r).

Notation "'io!' x <- m ; k" := (io_bind m (fun x => k))
  (at level 10, x name, m at level 100, k at level 200).

(** ** [src/data_ingestion/nws_fetch.py] *)

Module NwsFetch.

Record qpf_entry : Type := {
  start : option datetime;       (* entry.get("start") *)
  duration : option timedelta;   (* entry.get("duration") *)
  value_mm : option Q            (* entry.get("value_mm") *)
}.

Record pop_entry : Type := {
  pop_start : datetime;
  pop_duration : timedelta;
  probability_pct : option json_value
}.

(** The dict returned by [fetch_nws_forecast]; [qpf] is [None] when the key
    is absent or null ([forecast.get("qpf", []) or []]). *)
Record forecast : Type := {
  qpf : option (list qpf_entry);
  pop : list pop_entry;
  raw : option nws_payload
}.

Record point_meta : Type := {
  grid_id : string;
  grid_x : Z;
  grid_y : Z;
  forecast_url : string
}.

(** The body of the loop of [compute_72h_rain_mm] for one entry: [Ok None]
    when the entry is skipped by a [continue], [Ok (Some mm)] when [mm] is
    added to the running total. *)
Definition qpf_contribution (window_start window_end : datetime)
    (entry : qpf_entry) : result (option Q) :=
  match start entry, duration entry, value_mm entry with
  | Some start0, Some dur, Some value =>
      let start1 := assume_utc start0 in
      end_ ← dt_add start1 dur;
      overlap_start ← dt_max start1 window_start;
      overlap_end ← dt_min end_ window_end;
      skip ← dt_ge overlap_start overlap_end;
      if skip : bool then Ok None
      else
        let interval_hours := (total_seconds dur / 3600)%Q in
        overlap ← dt_sub overlap_end overlap_start;
        let overlap_hours := (total_seconds overlap / 3600)%Q in
        if Qleb interval_hours 0 then Ok None
        else
          fraction ← py_div overlap_hours interval_hours;
          Ok (Some (value * fraction)%Q)
  | _, _, _ => Ok None
  end.

Definition add_contribution (window_start window_end : datetime)
    (total : result Q) (entry : qpf_entry) : result Q :=
  total_mm ← total;
  c ← qpf_contribution window_start window_end entry;
  Ok (match c with
      | Some mm => (total_mm + mm)%Q
      | None => total_mm
      end).

(** [compute_72h_rain_mm]; [now] is the instant returned by
    [datetime.now(timezone.utc)], in microseconds since the epoch. *)
Definition compute_72h_rain_mm (now : Z) (fc : forecast) : result Q :=
  let window_start := {| wall_us := now; tzinfo := Some 0 |} in
  window_end ← dt_add window_start (72 * us_per_hour);
  foldl (add_contribution window_start window_end) (Ok 0%Q)
        (default [] (qpf fc)).

Section Parsing.

(** [float(s)] and [datetime.fromisoformat(s)]; [None] stands for the
    [ValueError] they raise on text they do not accept. *)
Variable py_float : string → option Q.
Variable fromisoformat : string → option datetime.

Definition float_or_raise (s : string) : result Q :=
  match py_float s with
  | Some q => Ok q
  | None => Raise (ValueError ("could not convert string to float: " ++ s))
  end.

(** [_parse_valid_time]; the [except] clause logs and re-raises. *)
Definition _parse_valid_time (valid_time : string)
  : result (datetime * timedelta) :=
  match split_on "/" valid_time with
  | [start_str; duration_str] =>
      match fromisoformat start_str with
      | None => Raise (ValueError ("Invalid isoformat string: " ++ start_str))
      | Some start_dt =>
          let start_dt := assume_utc start_dt in
          hours ← (if startswith "PT" duration_str && endswith "H" duration_str
                   then float_or_raise (slice_from_to_end 2 1 duration_str)
                   else if startswith "PT" duration_str && endswith "M" duration_str
                   then h ← float_or_raise (slice_from_to_end 2 1 duration_str);
                        Ok (h / 60)%Q
                   else Ok 0%Q);
          dur ← timedelta_hours hours;
          Ok (start_dt, dur)
      end
  | _ => Raise (ValueError "wrong number of values to unpack")
  end.

(** [float(value_mm)] on a decoded JSON value. *)
Definition float_of_json (v : json_value) : result Q :=
  match v with
  | JNumber q => Ok q
  | JString s => float_or_raise s
  | JBool b => Ok (if b then 1 else 0)%Q
  | JList =>
      Raise (TypeError "float() argument must be a string or a real number, not 'list'")
  | JObject =>
      Raise (TypeError "float() argument must be a string or a real number, not 'dict'")
  end.

(** The body of the QPF loop of [fetch_nws_forecast]: an item without
    [validTime] or without [value], or whose [validTime] does not parse, is
    dropped ([Ok None]); [float(value_mm)] is evaluated after the [try]
    block, so what it raises leaves the function. *)
Definition qpf_of_item (item : nws_value) : result (option qpf_entry) :=
  match validTime item, item_value item with
  | Some valid_time, Some value_mm =>
      match _parse_valid_time valid_time with
      | Ok (start_dt, dur) =>
          v ← float_of_json value_mm;
          Ok (Some {| start := Some start_dt; duration := Some dur;
                      value_mm := Some v |})
      | Raise _ => Ok None
      end
  | _, _ => Ok None
  end.

Definition qpf_step (acc : result (list qpf_entry)) (item : nws_value)
  : result (list qpf_entry) :=
  qpf_entries ← acc;
  o ← qpf_of_item item;
  Ok (match o with
      | Some e => (qpf_entries ++ [e])%list
      | None => qpf_entries
      end).

(** The body of the POP loop, which stores the value as it is. *)
Definition pop_of_item (item : nws_value) : option pop_entry :=
  match validTime item with
  | Some valid_time =>
      match _parse_valid_time valid_time with
      | Ok (start_dt, dur) =>
          Some {| pop_start := start_dt; pop_duration := dur;
                  probability_pct := item_value item |}
      | Raise _ => None
      end
  | None => None
  end.

Definition forecast_of_payload (payload : nws_payload) : result forecast :=
  qpf_entries ← foldl qpf_step (Ok []) (quantitativePrecipitation payload);
  Ok {| qpf := Some qpf_entries;
        pop := omap pop_of_item (probabilityOfPrecipitation payload);
        raw := Some payload |}.

Section Fetching.

(** The outside world: [points_request] and [forecast_request] perform the
    HTTP GET, the status check and the JSON decoding; [clock] is
    [datetime.now(timezone.utc)]; [read_config] opens and parses the YAML
    file. *)
Variable World : Type.
Variable points_request : Q → Q → io World points_payload.
Variable forecast_request : string → io World nws_payload.
Variable clock : World → World * Z.
Variable read_config : string → io World config_doc.

Definition get_point_metadata (lat lon : Q) : io World point_meta :=
  io! props <- points_request lat lon;
  match gridId props, gridX props, gridY props, forecastGridData props with
  | Some gid, Some gx, Some gy, Some url =>
      if nonempty gid && nonempty url
      then io_ret {| grid_id := gid; grid_x := gx; grid_y := gy;
                     forecast_url := url |}
      else io_lift (Raise (ValueError "Incomplete point metadata"))
  | _, _, _, _ => io_lift (Raise (ValueError "Incomplete point metadata"))
  end.

Definition fetch_nws_forecast (url : string) : io World forecast :=
  io! payload <- forecast_request url;
  io_lift (forecast_of_payload payload).

Definition _load_gauge_config (config_path : string)
  : io World (list gauge_item) :=
  io! cfg <- read_config config_path;
  io_ret (default [] (cfg_gauges cfg)).

(** The body of the [try] block of [fetch_all_gauges_forecast]. *)
Definition forecast_for_gauge (gauge_id : string) (lat lon : Q)
  : io World rain_estimate :=
  io! meta <- get_point_metadata lat lon;
  io! fc <- fetch_nws_forecast (forecast_url meta);
  io! now <- (fun w => let '(w', t) := clock w in (w', Ok t));
  io! rain_72h <- io_lift (compute_72h_rain_mm now fc);
  io_ret {| r_gauge_id := gauge_id; r_lat := lat; r_lon := lon;
            r_rain_72h_mm := rain_72h; r_raw := raw fc |}.

(** One iteration of the loop of [fetch_all_gauges_forecast]. *)
Definition forecast_step (st : World * gmap string rain_entry)
    (gauge : gauge_item) : World * gmap string rain_entry :=
  let '(w, results) := st in
  let gauge_id := gauge_id_of gauge in
  match nonempty gauge_id, g_latitude gauge, g_longitude gauge with
  | true, Some lat, Some lon =>
      match forecast_for_gauge gauge_id lat lon w with
      | (w', Ok r) => (w', <[gauge_id := RainEstimate r]> results)
      | (w', Raise exc) =>
          (w', <[gauge_id := RainError gauge_id (exn_str exc)]> results)
      end
  | _, _, _ => (w, results)   (* logged, then [continue] *)
  end.

Definition fetch_all_gauges_forecast (config_path : string)
  : io World (gmap string rain_entry) :=
  io! gauges <- _load_gauge_config config_path;
  fun w => let '(w', results) := foldl forecast_step (w, ∅) gauges in
           (w', Ok results).

End Fetching.
End Parsing.
End NwsFetch.

(** ** [src/data_ingestion/usgs_fetch.py] *)

Module UsgsFetch.

(** The three variables the loop over the time series updates. *)
Record latest : Type := {
  stage_ft : option Q;
  discharge_cfs : option Q;
  latest_ts : option string
}.

Section Parsing.

Variable py_float : string → option Q.

(** [float(latest_entry.get("value"))]: [None] when it raises ([TypeError]
    on a missing value, [ValueError] on text that is not a number). *)
Definition float_of_sample (e : usgs_sample) : option Q :=
  sample_value e ≫= py_float.

(** [variable_codes[0].get("value") if variable_codes else None]. *)
Definition param_code (series : usgs_series) : option string :=
  match variableCode series with
  | code :: _ => code
  | [] => None
  end.

(** One iteration of the loop over [time_series]. *)
Definition series_step (acc : latest) (series : usgs_series) : latest :=
  let param_code := param_code series in
  match values series with
  | [] => acc
  | entries :: _ =>
      match last entries with          (* entries[-1] *)
      | None => acc
      | Some latest_entry =>
          match float_of_sample latest_entry with
          | None => acc
          | Some value =>
              let timestamp := sample_dateTime latest_entry in
              if bool_decide (param_code = Some "00065") then
                {| stage_ft := Some value;
                   discharge_cfs := discharge_cfs acc;
                   latest_ts := str_or timestamp (latest_ts acc) |}
              else if bool_decide (param_code = Some "00060") then
                {| stage_ft := stage_ft acc;
                   discharge_cfs := Some value;
                   latest_ts := str_or timestamp (latest_ts acc) |}
              else acc
          end
      end
  end.

Definition no_reading : latest :=
  {| stage_ft := None; discharge_cfs := None; latest_ts := None |}.

(** The part of [fetch_usgs_gauge_data] that follows the request. *)
Definition reading_of_payload (gauge_id : string) (payload : usgs_payload)
  : result usgs_reading :=
  match timeSeries payload with
  | [] => Raise (ValueError ("No timeSeries data returned for gauge " ++ gauge_id))
  | time_series =>
      let acc := foldl series_step no_reading time_series in
      match stage_ft acc, discharge_cfs acc with
      | None, None =>
          Raise (ValueError ("Missing stage/discharge values for gauge " ++ gauge_id))
      | _, _ =>
          Ok {| u_gauge_id := gauge_id; u_timestamp := latest_ts acc;
                u_stage_ft := stage_ft acc;
                u_discharge_cfs := discharge_cfs acc; u_raw := payload |}
      end
  end.

Section Fetching.

(** [usgs_request] performs the HTTP GET, the status check and the JSON
    decoding; [read_config] opens and parses the YAML file. *)
Variable World : Type.
Variable usgs_request : string → io World usgs_payload.
Variable read_config : string → io World config_doc.

Definition fetch_usgs_gauge_data (gauge_id : string) : io World usgs_reading :=
  io! payload <- usgs_request gauge_id;
  io_lift (reading_of_payload gauge_id payload).

Definition _load_gauge_config (config_path : string)
  : io World (list gauge_item) :=
  io! cfg <- read_config config_path;
  io_ret (default [] (cfg_gauges cfg)).

(** One iteration of the loop of [fetch_all_gauges]. *)
Definition fetch_step (st : World * gmap string usgs_entry)
    (gauge : gauge_item) : World * gmap string usgs_entry :=
  let '(w, results) := st in
  let gauge_id := gauge_id_of gauge in
  if nonempty gauge_id then
    match fetch_usgs_gauge_data gauge_id w with
    | (w', Ok r) => (w', <[gauge_id := UsgsReading r]> results)
    | (w', Raise exc) =>
        (w', <[gauge_id := UsgsError gauge_id (exn_str exc)]> results)
    end
  else (w, results).   (* logged, then [continue] *)

Definition fetch_all_gauges (config_path : string)
  : io World (gmap string usgs_entry) :=
  io! gauges <- _load_gauge_config config_path;
  fun w => let '(w', results) := foldl fetch_step (w, ∅) gauges in
           (w', Ok results).

End Fetching.
End Parsing.
End UsgsFetch.

(** ** Concrete readers and a concrete world, used by the examples

    [decimal_float] accepts plain decimal literals ([-12], [8.5], [.5]) and
    [iso_datetime] the layout [YYYY-MM-DDTHH:MM:SS[.fff][+HH:MM]]; both are
    instances of what [float] and [datetime.fromisoformat] accept. *)

Module Sample.

Definition digit_of (c : ascii) : option Z :=
  let n := Z.of_nat (nat_of_ascii c) in
  if (48 <=? n) && (n <=? 57) then Some (n - 48) else None.

Fixpoint digits_value (s : string) (acc : Z) : option Z :=
  match s with
  | EmptyString => Some acc
  | String c s' => d ← digit_of c; digits_value s' (10 * acc + d)
  end.

Definition number (s : string) : option Z :=
  match s with
  | EmptyString => None
  | _ => digits_value s 0
  end.

Definition decimal_float (s : string) : option Q :=
  let '(sign, body) := match s with
                       | String "-" rest => (-1, rest)
                       | _ => (1, s)
                       end in
  match split_on "." body with
  | [int_part] => v ← number int_part; Some (inject_Z (sign * v))
  | [int_part; frac_part] =>
      match int_part, frac_part with
      | EmptyString, EmptyString => None
      | _, _ =>
          i ← digits_value int_part 0;
          f ← digits_value frac_part 0;
          Some (inject_Z sign *
                (inject_Z i + inject_Z f / inject_Z (10 ^ Z.of_nat (String.length frac_part))))%Q
      end
  | _ => None
  end.

(** Days since 1970-01-01 of a proleptic Gregorian date. *)
Definition days_from_civil (y m d : Z) : Z :=
  let y' := if m <=? 2 then y - 1 else y in
  let era := y' / 400 in
  let yoe := y' - era * 400 in
  let mp := (m + 9) mod 12 in
  let doy := (153 * mp + 2) / 5 + d - 1 in
  let doe := yoe * 365 + yoe / 4 - yoe / 100 + doy in
  era * 146097 + doe - 719468.

Definition field (i n : nat) (s : string) : option Z := number (substring i n s).

Definition iso_offset (s : string) : option (option Z) :=
  match s with
  | EmptyString => Some None
  | String sign rest =>
      if (String.length rest =? 5)%nat && String.eqb (substring 2 1 rest) ":" then
        h ← field 0 2 rest; m ← field 3 2 rest;
        let off := (h * 60 + m) * 60000000 in
        if Ascii.eqb sign "+" then Some (Some off)
        else if Ascii.eqb sign "-" then Some (Some (- off))
        else None
      else None
  end.

Definition iso_datetime (s : string) : option datetime :=
  if String.eqb (substring 4 1 s) "-" && String.eqb (substring 7 1 s) "-"
     && String.eqb (substring 10 1 s) "T" && String.eqb (substring 13 1 s) ":"
     && String.eqb (substring 16 1 s) ":" then
    y ← field 0 4 s; mo ← field 5 2 s; d ← field 8 2 s;
    h ← field 11 2 s; mi ← field 14 2 s; sec ← field 17 2 s;
    let rest := substring 19 (String.length s - 19) s in
    '(ms, rest) ← (if String.eqb (substring 0 1 rest) "."
                   then v ← field 1 3 rest;
                        Some (v, substring 4 (String.length rest - 4) rest)
                   else Some (0, rest));
    off ← iso_offset rest;
    Some {| wall_us := (((days_from_civil y mo d * 24 + h) * 60 + mi) * 60 + sec)
                       * 1000000 + ms * 1000;
            tzinfo := off |}
  else None.

(** The instant a [dateTime] text denotes, in microseconds since the epoch. *)
Definition iso_instant (s : string) : Z :=
  match iso_datetime s with
  | Some d => wall_us d - default 0 (tzinfo d)
  | None => 0
  end.

(** A world in which every request fails. *)
Definition offline {A} (_ : string) : io unit A :=
  fun w => (w, Raise (RequestException "connection refused")).

Definition offline_points (_ _ : Q) : io unit points_payload :=
  fun w => (w, Raise (RequestException "connection refused")).

Definition fixed_clock (w : unit) : unit * Z := (w, 1707566400000000).

Definition serve {A B} (payload : B) (_ : A) : io unit B :=
  fun w => (w, Ok payload).

Definition config_of (gauges : list gauge_item) (_ : string) : io unit config_doc :=
  fun w => (w, Ok {| cfg_gauges := Some gauges |}).

End Sample.

(** ** Vocabulary of the statements *)

Module RiskSpec.
Import RiskLogic.

(** Band dicts that hold the three required keys. *)
Definition has_bands (th : gmap string Q) (low medium high : Q) : Prop :=
  th !! "low" = Some low ∧ th !! "medium" = Some medium ∧ th !! "high" = Some high.

Definition complete (thresholds : gmap string (gmap string Q)) : Prop :=
  ∃ rt st, thresholds !! "rainfall_mm_72h" = Some rt
         ∧ thresholds !! "river_stage_ratio" = Some st
         ∧ (∃ l m h, has_bands rt l m h) ∧ (∃ l m h, has_bands st l m h).

Definition bands_of (low medium high : Q) : gmap string Q :=
  <["low" := low]> (<["medium" := medium]> (<["high" := high]> ∅)).

(** The band rule shared by the two sub-classifications. *)
Definition band_rule (x low medium high : Q) : string :=
  if Qleb x medium then (if Qleb x low then "LOW" else "MEDIUM")
  else (if Qgtb x high then "HIGH" else "MEDIUM").

(** The four levels a sub-classification can return. *)
Definition level (r : string) : Prop :=
  r = "UNKNOWN" ∨ r = "LOW" ∨ r = "MEDIUM" ∨ r = "HIGH".

(** The thresholds of the fixture of [tests/test_risk_logic.py]. *)
Definition fixture_thresholds : gmap string (gmap string Q) :=
  <["rainfall_mm_72h" := bands_of 0 50 150]>
    (<["river_stage_ratio" := bands_of (7 # 10) (9 # 10) 1]> ∅).

End RiskSpec.

Module RainSpec.
Import NwsFetch.

(** A precipitation period: start instant and duration in microseconds, and
    millimetres of water over the period. *)
Record period : Type := {
  p_start : Z;
  p_duration : Z;
  p_value_mm : Q
}.

(** The period a complete QPF entry stands for. *)
Definition period_of_entry (e : qpf_entry) : option period :=
  match start e, duration e, value_mm e with
  | Some s, Some d, Some v =>
      Some {| p_start := instant (assume_utc s); p_duration := d; p_value_mm := v |}
  | _, _, _ => None
  end.

Definition periods (fc : forecast) : list period :=
  omap period_of_entry (default [] (qpf fc)).

Definition window_us : Z := 72 * us_per_hour.

(** Overlap of a period with the window [[now, now + 72h)], in microseconds
    (not positive when they do not overlap). *)
Definition overlap_us (now : Z) (p : period) : Z :=
  Z.min (p_start p + p_duration p) (now + window_us) - Z.max (p_start p) now.

Definition hours (us : Z) : Q := (inject_Z us / inject_Z us_per_hour)%Q.

(** The share of a period that falls in the window:
    [value_mm * (overlap_hours / period_duration_hours)], and nothing for a
    period without positive overlap or without positive duration. *)
Definition prorated (now : Z) (p : period) : Q :=
  if (0 <? overlap_us now p) && (0 <? p_duration p)
  then (p_value_mm p * (hours (overlap_us now p) / hours (p_duration p)))%Q
  else 0%Q.

Definition Qsum (l : list Q) : Q := foldr Qplus 0%Q l.

Definition window_start (now : Z) : datetime :=
  {| wall_us := now; tzinfo := Some 0 |}.

Definition window_end (now : Z) : datetime :=
  dt_plus (window_start now) (72 * us_per_hour).

(** The entries on which [end = start + duration] stays in the range of a
    datetime, and the forecasts and reference times on which no sum of
    [compute_72h_rain_mm] leaves it. *)
Definition entry_overflows (e : qpf_entry) : bool :=
  match start e, duration e, value_mm e with
  | Some s, Some d, Some _ => overflows (assume_utc s) d
  | _, _, _ => false
  end.

Definition no_overflow (now : Z) (fc : forecast) : Prop :=
  overflows (window_start now) (72 * us_per_hour) = false
  ∧ Forall (fun e => entry_overflows e = false) (default [] (qpf fc)).

End RainSpec.

(** [c in s]. *)
Fixpoint has_char (c : ascii) (s : string) : bool :=
  match s with
  | EmptyString => false
  | String x s' => Ascii.eqb x c || has_char c s'
  end.

Module IngestSpec.

(** The value a reading retains for a parameter code. *)
Definition retained (code : string) (r : usgs_reading) : option Q :=
  if bool_decide (code = "00065") then u_stage_ft r
  else if bool_decide (code = "00060") then u_discharge_cfs r
  else None.

(** The same, for the variables the loop of [fetch_usgs_gauge_data] updates. *)
Definition kept (code : string) (acc : UsgsFetch.latest) : option Q :=
  if bool_decide (code = "00065") then UsgsFetch.stage_ft acc
  else if bool_decide (code = "00060") then UsgsFetch.discharge_cfs acc
  else None.

(** Samples in ascending chronological order, for a reading [chron] of their
    timestamps. *)
Definition ascending (chron : usgs_sample → Z) (entries : list usgs_sample) : Prop :=
  Sorted (fun a b => chron a <= chron b) entries.

(** The instant of a sample whose [dateTime] follows the ISO layout. *)
Definition sample_instant (e : usgs_sample) : Z :=
  Sample.iso_instant (default "" (sample_dateTime e)).

(** Every entry of a result mapping sits under its own gauge identifier. *)
Definition keyed {E} (id_of : E → string) (results : gmap string E) : Prop :=
  ∀ k e, results !! k = Some e → id_of e = k.

(** The identifiers for which [fetch_all_gauges] makes a request. *)
Definition usgs_keys (gauges : list gauge_item) : list string :=
  filter (fun k => nonempty k = true) (gauge_id_of <$> gauges).

(** The guard of the loop of [fetch_all_gauges_forecast]. *)
Definition forecast_guard (g : gauge_item) : bool :=
  nonempty (gauge_id_of g) && bool_decide (is_Some (g_latitude g))
  && bool_decide (is_Some (g_longitude g)).

(** The identifiers for which [fetch_all_gauges_forecast] makes requests. *)
Definition forecast_keys (gauges : list gauge_item) : list string :=
  gauge_id_of <$> filter (fun g => forecast_guard g = true) gauges.

End IngestSpec.

(** ** [src/cli/run_mvp1.py] *)

Module Cli.

(** The document [run] returns. *)
Record report : Type := {
  out_gauges : gmap string RiskLogic.assessment;
  out_usgs : gmap string usgs_entry;
  out_rainfall : gmap string rain_entry
}.

Section Run.

Variable py_float : string → option Q.
Variable fromisoformat : string → option datetime.
Variable World : Type.
Variable usgs_request : string → io World usgs_payload.
Variable points_request : Q → Q → io World points_payload.
Variable forecast_request : string → io World nws_payload.
Variable clock : World → World * Z.

(** [load_yaml] on the gauge file and on the thresholds file, and the
    reading of the gauge file by the two ingestion modules. *)
Variable read_config : string → io World config_doc.
Variable read_thresholds : string → io World (gmap string (gmap string Q)).

Definition run (gauge_config_path thresholds_path : string) : io World report :=
  io! gauge_cfg <- read_config gauge_config_path;
  io! thresholds <- read_thresholds thresholds_path;
  io! usgs_data <- UsgsFetch.fetch_all_gauges py_float World usgs_request
                     read_config gauge_config_path;
  io! rainfall <- NwsFetch.fetch_all_gauges_forecast py_float fromisoformat
                    World points_request forecast_request clock read_config
                    gauge_config_path;
  io! risks <- io_lift (RiskLogic.classify_all usgs_data rainfall gauge_cfg
                          thresholds);
  io_ret {| out_gauges := risks; out_usgs := usgs_data;
            out_rainfall := rainfall |}.

End Run.
End Cli.

Module MoreSpec.

(** The flood stage the configuration gives an identifier: that of the last
    item of the [gauges] list whose [id], as a string, is the identifier. *)
Definition configured_flood_stage (k : string) (items : list gauge_item)
  : option (option Q) :=
  g_flood_stage_ft <$>
    last (filter (fun item => py_str <$> g_id item = Some k) items).

(** A QPF entry as [fetch_nws_forecast] builds them: the three fields are
    present and the start carries a time zone. *)
Definition well_formed (e : NwsFetch.qpf_entry) : Prop :=
  ∃ s d v, NwsFetch.start e = Some s ∧ aware s
         ∧ NwsFetch.duration e = Some d ∧ NwsFetch.value_mm e = Some v.

(** What the QPF loop of [fetch_nws_forecast] makes of an item: it is kept
    as an entry when it holds a [validTime] that parses and a [value] that
    [float] accepts, and it is rejected, with the exception of [float], when
    its [validTime] parses and [float] does not accept its [value]. *)
Definition kept_as (py_float : string → option Q)
    (fromisoformat : string → option datetime)
    (item : nws_value) (e : NwsFetch.qpf_entry) : Prop :=
  ∃ vt v dt d q,
    validTime item = Some vt ∧ item_value item = Some v
    ∧ NwsFetch._parse_valid_time py_float fromisoformat vt = Ok (dt, d)
    ∧ NwsFetch.float_of_json py_float v = Ok q
    ∧ e = {| NwsFetch.start := Some dt; NwsFetch.duration := Some d;
             NwsFetch.value_mm := Some q |}.

Definition rejected (py_float : string → option Q)
    (fromisoformat : string → option datetime)
    (item : nws_value) (exc : exn) : Prop :=
  ∃ vt v dt d,
    validTime item = Some vt ∧ item_value item = Some v
    ∧ NwsFetch._parse_valid_time py_float fromisoformat vt = Ok (dt, d)
    ∧ NwsFetch.float_of_json py_float v = Raise exc.

(** A period that misses the window [[now, now + 72h)] or has no length. *)
Definition outside_window (now : Z) (p : RainSpec.period) : Prop :=
  RainSpec.p_start p + RainSpec.p_duration p <= now
  ∨ now + RainSpec.window_us <= RainSpec.p_start p
  ∨ RainSpec.p_duration p <= 0.

(** The properties of a points payload that [get_point_metadata] accepts. *)
Definition complete_points (props : points_payload) (meta : NwsFetch.point_meta)
  : Prop :=
  gridId props = Some (NwsFetch.grid_id meta)
  ∧ gridX props = Some (NwsFetch.grid_x meta)
  ∧ gridY props = Some (NwsFetch.grid_y meta)
  ∧ forecastGridData props = Some (NwsFetch.forecast_url meta)
  ∧ NwsFetch.grid_id meta ≠ "" ∧ NwsFetch.forecast_url meta ≠ "".

(** A series the loop of [fetch_usgs_gauge_data] passes over: another
    parameter code, no sample array, an empty one, or a last sample whose
    value is not a number. *)
Definition unusable (py_float : string → option Q) (s : usgs_series) : Prop :=
  (UsgsFetch.param_code s ≠ Some "00065" ∧ UsgsFetch.param_code s ≠ Some "00060")
  ∨ match values s with
    | [] => True
    | entries :: _ =>
        match last entries with
        | None => True
        | Some e => UsgsFetch.float_of_sample py_float e = None
        end
    end.

(** A world that answers the points request with a fixed payload, and the
    payloads of the examples. *)
Definition serve_points (props : points_payload) (_ _ : Q) : io unit points_payload :=
  fun w => (w, Ok props).

Definition sample_points : points_payload :=
  {| gridId := Some "STO"; gridX := Some 0; gridY := Some 68;
     forecastGridData := Some "https://api.weather.gov/gridpoints/STO/0,68" |}.

Definition sample_meta : NwsFetch.point_meta :=
  {| NwsFetch.grid_id := "STO"; NwsFetch.grid_x := 0; NwsFetch.grid_y := 68;
     NwsFetch.forecast_url := "https://api.weather.gov/gridpoints/STO/0,68" |}.

Definition sample_forecast_payload : nws_payload :=
  {| quantitativePrecipitation :=
       [ {| validTime := Some "2024-02-10T12:00:00+00:00/PT6H";
            item_value := Some (JNumber 12) |};
         {| validTime := Some "2024-02-10T18:00:00+00:00/P1D";
            item_value := Some (JNumber 30) |};
         {| validTime := None; item_value := Some (JNumber 5) |};
         {| validTime := Some "2024-02-10"; item_value := Some JList |} ];
     probabilityOfPrecipitation := [] |}.

(** The payload of [tests/test_usgs_fetch.py], and a payload whose only
    series ends with a sample that is not a number. *)
Definition sample_usgs_payload : usgs_payload :=
  {| timeSeries :=
       [ {| variableCode := [Some "00065"];
            values := [ [ {| sample_value := Some "8.5";
                             sample_dateTime := Some "2024-02-10T12:00:00.000-08:00" |} ] ] |};
         {| variableCode := [Some "00060"];
            values := [ [ {| sample_value := Some "15000";
                             sample_dateTime := Some "2024-02-10T12:00:00.000-08:00" |} ] ] |} ] |}.

Definition iced_usgs_payload : usgs_payload :=
  {| timeSeries :=
       [ {| variableCode := [Some "00065"];
            values := [ [ {| sample_value := Some "8.0";
                             sample_dateTime := Some "2024-02-10T12:00:00.000-08:00" |};
                          {| sample_value := Some "Ice";
                             sample_dateTime := Some "2024-02-10T12:15:00.000-08:00" |} ] ] |} ] |}.

(** The entry [fetch_all_gauges] records for an identifier, given what the
    request for it answers. *)
Definition usgs_entry_of (py_float : string → option Q)
    (answer : string → result usgs_payload) (k : string) : usgs_entry :=
  match answer k ≫= UsgsFetch.reading_of_payload py_float k with
  | Ok r => UsgsReading r
  | Raise exc => UsgsError k (exn_str exc)
  end.

(** A stage service that knows one gauge only. *)
Definition sample_answer (k : string) : result usgs_payload :=
  if String.eqb k "11425500" then Ok sample_usgs_payload
  else Raise (RequestException "404 Client Error").

Definition sample_request (k : string) : io unit usgs_payload :=
  fun w => (w, sample_answer k).

Definition sample_gauges : list gauge_item :=
  [ {| g_id := Some (YStr "11447650"); g_latitude := Some (77 # 2)%Q;
       g_longitude := Some (-243 # 2)%Q; g_flood_stage_ft := Some 30%Q |};
    {| g_id := Some (YStr "11425500"); g_latitude := None;
       g_longitude := None; g_flood_stage_ft := Some 20%Q |};
    {| g_id := None; g_latitude := None; g_longitude := None;
       g_flood_stage_ft := None |} ].

(** [s.count(c)]. *)
Fixpoint count_char (c : ascii) (s : string) : nat :=
  match s with
  | EmptyString => O
  | String x s' => if Ascii.eqb x c then S (count_char c s') else count_char c s'
  end.

(** A shift of a QPF entry in time. *)
Definition shift_entry (delta : Z) (e : NwsFetch.qpf_entry) : NwsFetch.qpf_entry :=
  {| NwsFetch.start := (fun s => dt_plus s delta) <$> NwsFetch.start e;
     NwsFetch.duration := NwsFetch.duration e;
     NwsFetch.value_mm := NwsFetch.value_mm e |}.

Definition shift_forecast (delta : Z) (fc : NwsFetch.forecast) : NwsFetch.forecast :=
  {| NwsFetch.qpf := (fun l : list NwsFetch.qpf_entry => shift_entry delta <$> l)
                     <$> NwsFetch.qpf fc;
     NwsFetch.pop := NwsFetch.pop fc;
     NwsFetch.raw := NwsFetch.raw fc |}.

End MoreSpec.

(** * Properties *)

Example iso_datetime_example :
  Sample.iso_datetime "2024-02-10T12:00:00.000-08:00"
  = Some {| wall_us := 1707566400000000; tzinfo := Some (-28800000000) |}.
Proof. vm_compute. reflexivity. Qed.

Example decimal_float_example :
  Sample.decimal_float "8.5" = Some (8 + 5 / 10)%Q
  ∧ Sample.decimal_float "-12" = Some (-12 # 1)%Q
  ∧ Sample.decimal_float "n/a" = None.
Proof. vm_compute. auto. Qed.

(** ** Comparisons and the result monad *)

Lemma Qleb_le (a b : Q) : Qleb a b = true ↔ (a <= b)%Q.
Proof. apply Qle_bool_iff. Qed.

Lemma Qleb_gt (a b : Q) : Qleb a b = false ↔ (b < a)%Q.
Proof.
  rewrite <- not_true_iff_false, Qleb_le. split.
  - apply Qnot_le_lt.
  - apply Qlt_not_le.
Qed.

Lemma Qgtb_gt (a b : Q) : Qgtb a b = true ↔ (b < a)%Q.
Proof.
  unfold Qgtb. rewrite (Qgt_alt a b).
  destruct (a ?= b)%Q; split; congruence.
Qed.

Lemma Qgtb_le (a b : Q) : Qgtb a b = false ↔ (a <= b)%Q.
Proof.
  rewrite <- not_true_iff_false, Qgtb_gt. split.
  - apply Qnot_lt_le.
  - apply Qle_not_lt.
Qed.

Lemma Qis_zero_eq (a : Q) : Qis_zero a = true ↔ (a == 0)%Q.
Proof. apply Qeq_bool_iff. Qed.

Lemma getitem_Some {V} (d : gmap string V) k v : d !! k = Some v → getitem d k = Ok v.
Proof. intros H. unfold getitem. by rewrite H. Qed.

Lemma py_div_nonzero (a b : Q) : Qis_zero b = false → py_div a b = Ok (a / b)%Q.
Proof. intros H. unfold py_div. by rewrite H. Qed.

(** ** Risk classification *)

Import RiskLogic RiskSpec.

Lemma has_bands_of low medium high :
  has_bands (bands_of low medium high) low medium high.
Proof. by unfold has_bands, bands_of. Qed.

Lemma risk_from_rain_bands th low medium high rain :
  has_bands th low medium high →
  _risk_from_rain (Some rain) th = Ok (band_rule rain low medium high).
Proof.
  intros (Hl & Hm & Hh). unfold _risk_from_rain, band_rule.
  rewrite (getitem_Some _ _ _ Hm). cbn.
  destruct (Qleb rain medium).
  - by rewrite (getitem_Some _ _ _ Hl).
  - by rewrite (getitem_Some _ _ _ Hh).
Qed.

Lemma risk_from_stage_bands th low medium high stage flood :
  has_bands th low medium high → Qis_zero flood = false →
  _risk_from_stage (Some stage) (Some flood) th
  = Ok (band_rule (stage / flood) low medium high).
Proof.
  intros (Hl & Hm & Hh) Hz. unfold _risk_from_stage, band_rule.
  rewrite Hz, (py_div_nonzero _ _ Hz). cbn.
  rewrite (getitem_Some _ _ _ Hm). cbn.
  destruct (Qleb (stage / flood) medium).
  - by rewrite (getitem_Some _ _ _ Hl).
  - by rewrite (getitem_Some _ _ _ Hh).
Qed.

Lemma band_rule_level x l m h : level (band_rule x l m h).
Proof.
  unfold band_rule, level.
  destruct (Qleb x m), (Qleb x l), (Qgtb x h); auto.
Qed.

Ltac bind_cases :=
  repeat match goal with
         | H : context [getitem ?d ?k] |- _ =>
             destruct (getitem d k); cbn in H; try discriminate
         | H : context [py_div ?a ?b] |- _ =>
             destruct (py_div a b); cbn in H; try discriminate
         | H : context [if ?c then _ else _] |- _ =>
             destruct c; cbn in H; try discriminate
         end.

Lemma risk_from_rain_level rain th r : _risk_from_rain rain th = Ok r → level r.
Proof.
  unfold _risk_from_rain, level. intros H.
  destruct rain; cbn in H; bind_cases; inversion H; auto.
Qed.

Lemma risk_from_stage_level stage flood th r :
  _risk_from_stage stage flood th = Ok r → level r.
Proof.
  unfold _risk_from_stage, level. intros H.
  destruct stage, flood; cbn in H; bind_cases; inversion H; auto.
Qed.

Lemma rank_values :
  rank "UNKNOWN" = -1 ∧ rank "LOW" = 0 ∧ rank "MEDIUM" = 1 ∧ rank "HIGH" = 2.
Proof. by vm_compute. Qed.

(** Severity of the combination, for any two levels. *)
Lemma max_by_rank_levels a b :
  level a → level b →
  rank (max_by rank a b) = Z.max (rank a) (rank b)
  ∧ (max_by rank a b = a ∨ max_by rank a b = b)
  ∧ (max_by rank a b = "UNKNOWN" ↔ a = "UNKNOWN" ∧ b = "UNKNOWN").
Proof.
  intros Ha Hb.
  destruct Ha as [-> | [-> | [-> | ->]]], Hb as [-> | [-> | [-> | ->]]];
    vm_compute; (split; [reflexivity | split; [auto | split; [auto | intros [? ?]; congruence]]]);
    try (intros ?; discriminate).
Qed.


Lemma classify_gauge_fields gid stage flood rain th res :
  classify_gauge gid stage flood rain th = Ok res →
  ∃ rt st, th !! "rainfall_mm_72h" = Some rt ∧ th !! "river_stage_ratio" = Some st
    ∧ _risk_from_rain rain rt = Ok (rain_risk res)
    ∧ _risk_from_stage stage flood st = Ok (stage_risk res)
    ∧ risk res = max_by rank (rain_risk res) (stage_risk res)
    ∧ gauge_id res = gid.
Proof.
  unfold classify_gauge, getitem. intros H.
  destruct (th !! "rainfall_mm_72h") as [rt|]; [|discriminate].
  destruct (th !! "river_stage_ratio") as [st|]; [|discriminate].
  cbn in H. exists rt, st.
  destruct (_risk_from_rain rain rt) as [rr|]; [|discriminate].
  destruct (_risk_from_stage stage flood st) as [sr|]; [|discriminate].
  cbn in H.
  destruct stage as [s|], flood as [f|]; cbn in H;
    try (destruct (Qis_zero f) eqn:Hz; [| rewrite (py_div_nonzero _ _ Hz) in H];
         cbn in H);
    inversion H; subst; cbn; repeat split; reflexivity.
Qed.

Lemma classify_gauge_total gid stage flood rain th :
  complete th → ∃ res, classify_gauge gid stage flood rain th = Ok res.
Proof.
  intros (rt & st & Hrt & Hst & (l1 & m1 & h1 & Hb1) & (l2 & m2 & h2 & Hb2)).
  unfold classify_gauge.
  rewrite (getitem_Some _ _ _ Hrt), (getitem_Some _ _ _ Hst). cbn.
  assert (∃ rr, _risk_from_rain rain rt = Ok rr) as [rr ->].
  { destruct rain; [rewrite (risk_from_rain_bands _ _ _ _ _ Hb1) |]; eauto. }
  assert (∃ sr, _risk_from_stage stage flood st = Ok sr) as [sr ->].
  { destruct stage as [s|], flood as [f|]; try (cbn; eauto; fail).
    destruct (Qis_zero f) eqn:Hz.
    - unfold _risk_from_stage. rewrite Hz. eauto.
    - rewrite (risk_from_stage_bands _ _ _ _ _ _ Hb2 Hz). eauto. }
  cbn. destruct stage as [s|], flood as [f|]; cbn; eauto.
  destruct (Qis_zero f) eqn:Hz; cbn; eauto.
  rewrite (py_div_nonzero _ _ Hz). cbn. eauto.
Qed.

(** C1. Whenever [classify_gauge] returns, its [risk] field is the more
    severe of [rain_risk] and [stage_risk] under
    UNKNOWN < LOW < MEDIUM < HIGH: its rank is the maximum of the two ranks,
    it is one of the two sub-risks, and it is UNKNOWN exactly when both are;
    and [classify_gauge] does return when the thresholds are complete. *)
Theorem classify_gauge_risk_is_max gid stage flood rain th :
  (rank "UNKNOWN" < rank "LOW" < rank "MEDIUM" ∧ rank "MEDIUM" < rank "HIGH")
  ∧ (∀ res, classify_gauge gid stage flood rain th = Ok res →
       rank (risk res) = Z.max (rank (rain_risk res)) (rank (stage_risk res))
       ∧ (risk res = rain_risk res ∨ risk res = stage_risk res)
       ∧ (risk res = "UNKNOWN" ↔
          rain_risk res = "UNKNOWN" ∧ stage_risk res = "UNKNOWN"))
  ∧ (complete th → ∃ res, classify_gauge gid stage flood rain th = Ok res).
Proof.
  split; [by vm_compute |]. split; [| apply classify_gauge_total].
  intros res H.
  destruct (classify_gauge_fields _ _ _ _ _ _ H)
    as (rt & st & _ & _ & Hr & Hs & -> & _).
  apply max_by_rank_levels.
  - eapply risk_from_rain_level, Hr.
  - eapply risk_from_stage_level, Hs.
Qed.

Lemma classify_gauge_risk_is_max_witness :
  ∃ res,
    classify_gauge "123" (Some 5%Q) (Some 20%Q) (Some 200%Q) fixture_thresholds
    = Ok res
    ∧ risk res = "HIGH"
    ∧ rank (risk res) = Z.max (rank (rain_risk res)) (rank (stage_risk res)).
Proof.
  destruct (classify_gauge_risk_is_max "123" (Some 5%Q) (Some 20%Q) (Some 200%Q)
              fixture_thresholds) as (_ & H & _).
  eexists. split; [reflexivity |]. split; [reflexivity |].
  apply (H _ eq_refl).
Defined.

(** C2. At [stage_ft = 10], [flood_stage_ft = 10] and the stage-ratio bands
    low 0.7, medium 0.9, high 1.0 the stage sub-classification returns MEDIUM:
    the ratio 1.0 is not strictly greater than [high]. *)
Theorem risk_from_stage_at_flood_stage :
  _risk_from_stage (Some 10%Q) (Some 10%Q) (bands_of (7 # 10) (9 # 10) 1)
  = Ok "MEDIUM".
Proof. reflexivity. Qed.

(** The whole assessment of [test_risk_high_by_stage] is MEDIUM as well. *)
Lemma classify_gauge_at_flood_stage :
  risk <$> classify_gauge "123" (Some 10%Q) (Some 10%Q) (Some 10%Q)
             fixture_thresholds
  = Ok "MEDIUM".
Proof. reflexivity. Qed.




(** C8. The stage sub-classification returns UNKNOWN, without raising and
    whatever the bands dict holds, when [stage_ft] is absent, when
    [flood_stage_ft] is absent, or when [flood_stage_ft] is zero. *)
Theorem risk_from_stage_unknown stage flood th :
  stage = None ∨ flood = None ∨ (∃ f, flood = Some f ∧ (f == 0)%Q) →
  _risk_from_stage stage flood th = Ok "UNKNOWN".
Proof.
  intros [-> | [-> | (f & -> & Hf)]].
  - done.
  - by destruct stage.
  - apply Qis_zero_eq in Hf. unfold _risk_from_stage.
    destruct stage; [by rewrite Hf | done].
Qed.

Lemma risk_from_stage_unknown_witness :
  _risk_from_stage (Some 12%Q) (Some 0%Q) ∅ = Ok "UNKNOWN".
Proof.
  apply risk_from_stage_unknown. right. right. exists 0%Q.
  split; reflexivity.
Defined.

(** ** [classify_all] *)

Lemma classify_fold_raise rd lk th e l :
  foldl (classify_step rd lk th) (Raise e) l = Raise e.
Proof. induction l as [| kv l IH]; [done | apply IH]. Qed.

Lemma classify_step_Ok rd lk th m0 k obs :
  classify_step rd lk th (Ok m0) (k, obs)
  = match classify_gauge k (usgs_get_stage_ft obs) (mjoin (lk !! k))
            (rd !! k ≫= rain_get_rain_72h_mm) th with
    | Ok a => Ok (<[k := a]> m0)
    | Raise e => Raise e
    end.
Proof. reflexivity. Qed.

Lemma classify_fold_dom rd lk th l : ∀ m0 res,
  foldl (classify_step rd lk th) (Ok m0) l = Ok res →
  dom res = dom m0 ∪ list_to_set l.*1.
Proof.
  induction l as [| [k obs] l IH]; intros m0 res H.
  - injection H as <-. set_solver.
  - change (foldl (classify_step rd lk th)
              (classify_step rd lk th (Ok m0) (k, obs)) l = Ok res) in H.
    rewrite classify_step_Ok in H.
    destruct (classify_gauge k _ _ _ th) as [a | e].
    + apply IH in H. rewrite H, dom_insert_L. set_solver.
    + by rewrite classify_fold_raise in H.
Qed.

Lemma classify_fold_total rd lk th l : complete th → ∀ m0,
  ∃ res, foldl (classify_step rd lk th) (Ok m0) l = Ok res.
Proof.
  intros Hth. induction l as [| [k obs] l IH]; intros m0.
  - by exists m0.
  - change (∃ res, foldl (classify_step rd lk th)
              (classify_step rd lk th (Ok m0) (k, obs)) l = Ok res).
    rewrite classify_step_Ok.
    destruct (classify_gauge_total k (usgs_get_stage_ft obs) (mjoin (lk !! k))
                (rd !! k ≫= rain_get_rain_72h_mm) th Hth) as [a ->].
    apply IH.
Qed.

(** C10. Whenever [classify_all] returns, the mapping it returns has exactly
    the keys of [usgs_data]: an identifier outside [usgs_data] has no entry,
    even when the configuration or [rainfall_data] knows it, and every key of
    [usgs_data] has one; and [classify_all] does return when the thresholds
    are complete. *)
Theorem classify_all_keys usgs_data rainfall_data gauge_config th :
  (∀ res, classify_all usgs_data rainfall_data gauge_config th = Ok res →
     dom res = dom usgs_data
     ∧ (∀ k, usgs_data !! k = None → res !! k = None)
     ∧ (∀ k, is_Some (usgs_data !! k) → is_Some (res !! k)))
  ∧ (complete th →
     ∃ res, classify_all usgs_data rainfall_data gauge_config th = Ok res).
Proof.
  unfold classify_all. split; [| intros Hth; by apply classify_fold_total].
  intros res H. apply classify_fold_dom in H.
  assert (dom res = dom usgs_data) as Hdom.
  { rewrite H, dom_empty_L, (left_id_L ∅ (∪)).
    symmetry. apply leibniz_equiv, dom_alt. }
  split; [done |]. split; intros k.
  - rewrite <- !not_elem_of_dom. by rewrite Hdom.
  - rewrite <- !elem_of_dom. by rewrite Hdom.
Qed.

Lemma classify_all_keys_witness :
  let usgs_data : gmap string usgs_entry :=
    <["11425500" := UsgsError "11425500" "connection refused"]> ∅ in
  let rainfall_data : gmap string rain_entry :=
    <["11447650" := RainError "11447650" "connection refused"]> ∅ in
  ∃ res,
    classify_all usgs_data rainfall_data {| cfg_gauges := None |} fixture_thresholds
    = Ok res
    ∧ dom res = dom usgs_data.
Proof.
  cbv zeta.
  destruct (classify_all_keys
              (<["11425500" := UsgsError "11425500" "connection refused"]> ∅)
              (<["11447650" := RainError "11447650" "connection refused"]> ∅)
              {| cfg_gauges := None |} fixture_thresholds) as [Hkeys Htotal].
  destruct Htotal as [res Hres].
  { exists (bands_of 0 50 150), (bands_of (7 # 10) (9 # 10) 1).
    split; [reflexivity |]. split; [reflexivity |].
    split; do 3 eexists; repeat split; reflexivity. }
  exists res. split; [exact Hres |]. apply (Hkeys res Hres).
Defined.

(** ** Datetime arithmetic on aware datetimes *)

Lemma instant_aware d off : tzinfo d = Some off → instant d = wall_us d - off.
Proof. intros H. unfold instant. by rewrite H. Qed.

Lemma assume_utc_aware d : aware (assume_utc d).
Proof. unfold assume_utc, aware. destruct (tzinfo d) eqn:H; [by rewrite H | by eexists]. Qed.

Lemma dt_plus_aware d td : aware d → aware (dt_plus d td).
Proof. by unfold aware, dt_plus. Qed.

Lemma instant_dt_plus d td : instant (dt_plus d td) = instant d + td.
Proof. unfold instant, dt_plus. cbn. lia. Qed.

Lemma dt_add_Ok d td : overflows d td = false → dt_add d td = Ok (dt_plus d td).
Proof. intros H. unfold dt_add. by rewrite H. Qed.

Lemma dt_add_Raise d td :
  overflows d td = true →
  dt_add d td = Raise (OverflowError "date value out of range").
Proof. intros H. unfold dt_add. by rewrite H. Qed.

Lemma dt_lt_aware a b :
  aware a → aware b → dt_lt a b = Ok (instant a <? instant b).
Proof.
  intros [oa Ha] [ob Hb]. unfold dt_lt.
  rewrite (instant_aware _ _ Ha), (instant_aware _ _ Hb). by rewrite Ha, Hb.
Qed.

Lemma dt_sub_aware a b :
  aware a → aware b → dt_sub a b = Ok (instant a - instant b).
Proof.
  intros [oa Ha] [ob Hb]. unfold dt_sub.
  rewrite (instant_aware _ _ Ha), (instant_aware _ _ Hb). by rewrite Ha, Hb.
Qed.

Lemma dt_ge_aware a b :
  aware a → aware b → dt_ge a b = Ok (instant b <=? instant a).
Proof.
  intros Ha Hb. unfold dt_ge. rewrite (dt_lt_aware _ _ Ha Hb). cbn.
  f_equal. destruct (Z.ltb_spec (instant a) (instant b)),
             (Z.leb_spec (instant b) (instant a)); cbn; auto; lia.
Qed.

Lemma dt_max_aware a b :
  aware a → aware b →
  ∃ m, dt_max a b = Ok m ∧ aware m ∧ instant m = Z.max (instant a) (instant b).
Proof.
  intros Ha Hb. unfold dt_max. rewrite (dt_lt_aware _ _ Ha Hb). cbn.
  destruct (Z.ltb_spec (instant a) (instant b)); eexists; (split; [done |]);
    (split; [done | lia]).
Qed.

Lemma dt_min_aware a b :
  aware a → aware b →
  ∃ m, dt_min a b = Ok m ∧ aware m ∧ instant m = Z.min (instant a) (instant b).
Proof.
  intros Ha Hb. unfold dt_min. rewrite (dt_lt_aware _ _ Hb Ha). cbn.
  destruct (Z.ltb_spec (instant b) (instant a)); eexists; (split; [done |]);
    (split; [done | lia]).
Qed.

(** ** The rainfall accumulator *)

Import NwsFetch RainSpec.

Lemma total_seconds_hours us : (total_seconds us / 3600 == hours us)%Q.
Proof.
  unfold total_seconds, hours, us_per_hour.
  change (inject_Z 3600000000) with (3600000000 # 1)%Q. field.
Qed.

Lemma hours_pos us : 0 < us → (0 < hours us)%Q.
Proof.
  intros H. unfold hours. apply Qlt_shift_div_l; [reflexivity |].
  rewrite Qmult_0_l. change 0%Q with (inject_Z 0). by rewrite <- Zlt_Qlt.
Qed.

Lemma hours_nonneg us : 0 <= us → (0 <= hours us)%Q.
Proof.
  intros H. unfold hours. apply Qle_shift_div_l; [reflexivity |].
  rewrite Qmult_0_l. change 0%Q with (inject_Z 0). by rewrite <- Zle_Qle.
Qed.

Lemma window_start_aware now : aware (window_start now).
Proof. by eexists. Qed.

Lemma window_end_aware now : aware (window_end now).
Proof. by eexists. Qed.

Lemma instant_window_start now : instant (window_start now) = now.
Proof. unfold instant. cbn. lia. Qed.

Lemma instant_window_end now : instant (window_end now) = now + window_us.
Proof. unfold instant, window_us. cbn. lia. Qed.

Lemma qpf_contribution_incomplete ws we e :
  period_of_entry e = None → qpf_contribution ws we e = Ok None.
Proof.
  unfold period_of_entry, qpf_contribution.
  by destruct (start e), (duration e), (value_mm e).
Qed.

Lemma result_bind_Ok {A B} (a : A) (f : A → result B) : (Ok a ≫= f) = f a.
Proof. reflexivity. Qed.

(** An entry whose end leaves the range of a datetime raises. *)
Lemma qpf_contribution_overflow ws we e :
  entry_overflows e = true →
  qpf_contribution ws we e = Raise (OverflowError "date value out of range").
Proof.
  unfold entry_overflows, qpf_contribution.
  destruct (start e) as [s|], (duration e) as [d|], (value_mm e) as [v|];
    try discriminate.
  intros H. by rewrite (dt_add_Raise _ _ H).
Qed.

(** What one iteration adds, for a complete entry whose end is in range. *)
Lemma qpf_contribution_period now e p :
  period_of_entry e = Some p → entry_overflows e = false →
  (overlap_us now p <= 0 ∧
   qpf_contribution (window_start now) (window_end now) e = Ok None)
  ∨ (0 < overlap_us now p ∧ 0 < p_duration p ∧
     ∃ mm, qpf_contribution (window_start now) (window_end now) e = Ok (Some mm)
          ∧ (mm == p_value_mm p * (hours (overlap_us now p) / hours (p_duration p)))%Q).
Proof.
  unfold period_of_entry, qpf_contribution, entry_overflows.
  destruct (start e) as [s|], (duration e) as [d|], (value_mm e) as [v|];
    try discriminate.
  intros [= <-] Hrange. unfold overlap_us. cbn [p_start p_duration p_value_mm].
  rewrite (dt_add_Ok _ _ Hrange), result_bind_Ok.
  pose proof (assume_utc_aware s) as Hs.
  destruct (dt_max_aware _ _ Hs (window_start_aware now)) as (m1 & -> & Hm1 & Em1).
  destruct (dt_min_aware _ _ (dt_plus_aware _ d Hs) (window_end_aware now))
    as (m2 & -> & Hm2 & Em2).
  cbn. rewrite (dt_ge_aware _ _ Hm1 Hm2). cbn.
  rewrite instant_window_start in Em1.
  rewrite instant_window_end, instant_dt_plus in Em2.
  rewrite <- Em1, <- Em2.
  destruct (Z.leb_spec (instant m2) (instant m1)) as [Hle | Hlt].
  - left. split; [lia | done].
  - right. assert (0 < d) as Hd by lia.
    split; [lia |]. split; [done |].
    rewrite (dt_sub_aware _ _ Hm2 Hm1). cbn.
    assert (Qleb (total_seconds d / 3600) 0 = false) as ->.
    { apply Qleb_gt. rewrite total_seconds_hours. by apply hours_pos. }
    rewrite py_div_nonzero.
    + cbn. eexists. split; [reflexivity |].
      by rewrite !total_seconds_hours.
    + destruct (Qis_zero _) eqn:Hz; [| done].
      apply Qis_zero_eq in Hz. rewrite total_seconds_hours in Hz.
      pose proof (hours_pos d Hd) as Hp. rewrite Hz in Hp.
      by apply Qlt_irrefl in Hp.
Qed.

Lemma prorated_skip now p : overlap_us now p <= 0 → prorated now p = 0%Q.
Proof.
  intros H. unfold prorated.
  destruct (Z.ltb_spec 0 (overlap_us now p)); [lia | done].
Qed.

Lemma prorated_share now p :
  0 < overlap_us now p → 0 < p_duration p →
  prorated now p
  = (p_value_mm p * (hours (overlap_us now p) / hours (p_duration p)))%Q.
Proof.
  intros Ho Hd. unfold prorated.
  destruct (Z.ltb_spec 0 (overlap_us now p)); [| lia].
  destruct (Z.ltb_spec 0 (p_duration p)); [done | lia].
Qed.

Lemma add_contribution_Ok ws we acc e :
  add_contribution ws we (Ok acc) e
  = match qpf_contribution ws we e with
    | Ok (Some mm) => Ok (acc + mm)%Q
    | Ok None => Ok acc
    | Raise exc => Raise exc
    end.
Proof.
  unfold add_contribution. cbn.
  by destruct (qpf_contribution ws we e) as [[mm|]|].
Qed.

Lemma add_contribution_raise ws we exc l :
  foldl (add_contribution ws we) (Raise exc) l = Raise exc.
Proof. induction l as [| e l IH]; [done | apply IH]. Qed.

Lemma add_contribution_fold now l : ∀ acc,
  Forall (fun e => entry_overflows e = false) l →
  ∃ total,
    foldl (add_contribution (window_start now) (window_end now)) (Ok acc) l
    = Ok total
    ∧ (total == acc + Qsum (prorated now <$> omap period_of_entry l))%Q.
Proof.
  induction l as [| e l IH]; intros acc Hrange.
  - exists acc. split; [done |]. cbn. by rewrite Qplus_0_r.
  - apply Forall_cons in Hrange as [He Hrange].
    change (∃ total,
      foldl (add_contribution (window_start now) (window_end now))
        (add_contribution (window_start now) (window_end now) (Ok acc) e) l
      = Ok total
      ∧ (total == acc + Qsum (prorated now <$> omap period_of_entry (e :: l)))%Q).
    rewrite add_contribution_Ok. cbn [omap list_omap].
    destruct (period_of_entry e) as [p|] eqn:Hp.
    + cbn [fmap list_fmap Qsum foldr].
      destruct (qpf_contribution_period now e p Hp He)
        as [[Ho ->] | (Ho & Hd & mm & -> & Hmm)].
      * destruct (IH acc Hrange) as (t & Ht & Et). exists t. split; [done |].
        rewrite Et, (prorated_skip _ _ Ho). unfold Qsum. ring.
      * destruct (IH (acc + mm)%Q Hrange) as (t & Ht & Et). exists t.
        split; [done |].
        rewrite Et, (prorated_share _ _ Ho Hd), Hmm. unfold Qsum. ring.
    + rewrite (qpf_contribution_incomplete _ _ _ Hp). by apply IH.
Qed.

(** The loop returns only when no entry overflows. *)
Lemma add_contribution_fold_inv ws we l : ∀ acc total,
  foldl (add_contribution ws we) (Ok acc) l = Ok total →
  Forall (fun e => entry_overflows e = false) l.
Proof.
  induction l as [| e l IH]; intros acc total H; [done |].
  cbn [foldl] in H. rewrite add_contribution_Ok in H.
  destruct (entry_overflows e) eqn:He.
  - rewrite (qpf_contribution_overflow _ _ _ He) in H.
    by rewrite add_contribution_raise in H.
  - apply Forall_cons. split; [done |].
    destruct (qpf_contribution ws we e) as [[mm |] | exc];
      [by eapply IH | by eapply IH | by rewrite add_contribution_raise in H].
Qed.

Lemma compute_72h_rain_mm_window now fc :
  compute_72h_rain_mm now fc
  = if overflows (window_start now) (72 * us_per_hour)
    then Raise (OverflowError "date value out of range")
    else foldl (add_contribution (window_start now) (window_end now)) (Ok 0%Q)
           (default [] (qpf fc)).
Proof.
  unfold compute_72h_rain_mm, dt_add.
  change {| wall_us := now; tzinfo := Some 0 |} with (window_start now).
  by destruct (overflows (window_start now) (72 * us_per_hour)).
Qed.

Lemma compute_72h_rain_mm_sum now fc :
  no_overflow now fc →
  ∃ total, compute_72h_rain_mm now fc = Ok total
         ∧ (total == Qsum (prorated now <$> periods fc))%Q.
Proof.
  intros [Hw Hl]. rewrite compute_72h_rain_mm_window, Hw.
  destruct (add_contribution_fold now (default [] (qpf fc)) 0%Q Hl)
    as (t & Ht & Et).
  exists t. split; [exact Ht |]. by rewrite Et, Qplus_0_l.
Qed.

Lemma compute_72h_rain_mm_returns now fc total :
  compute_72h_rain_mm now fc = Ok total → no_overflow now fc.
Proof.
  rewrite compute_72h_rain_mm_window. unfold no_overflow.
  destruct (overflows (window_start now) (72 * us_per_hour)); [discriminate |].
  intros H. split; [done |]. by eapply add_contribution_fold_inv.
Qed.

Lemma compute_72h_rain_mm_total now fc total :
  compute_72h_rain_mm now fc = Ok total →
  (total == Qsum (prorated now <$> periods fc))%Q.
Proof.
  intros H.
  destruct (compute_72h_rain_mm_sum now fc (compute_72h_rain_mm_returns _ _ _ H))
    as (t & Ht & Et).
  rewrite H in Ht. by injection Ht as <-.
Qed.

Lemma hours_ratio_self us : 0 < us → (hours us / hours us == 1)%Q.
Proof.
  intros H. pose proof (hours_pos us H) as Hp. field.
  intros Hz. rewrite Hz in Hp. by apply Qlt_irrefl in Hp.
Qed.

Lemma hours_ratio_half us : 0 < us → (hours us / hours (2 * us) == 1 # 2)%Q.
Proof.
  intros H. unfold hours. rewrite inject_Z_mult.
  change (inject_Z us_per_hour) with (3600000000 # 1)%Q.
  change (inject_Z 2) with (2 # 1)%Q.
  field. intros Hz. change 0%Q with (inject_Z 0) in Hz.
  rewrite inject_Z_injective in Hz. lia.
Qed.

(** C4, as stated, fails: a period that starts on 9999-12-31 and lasts 48
    hours makes [end = start + duration] leave the range of a datetime, and
    [compute_72h_rain_mm] raises [OverflowError] instead of returning a
    total. *)
Lemma compute_72h_rain_mm_overflow_counterexample :
  compute_72h_rain_mm 1707566400000000
    {| qpf := Some [ {| start := Some {| wall_us := 253402214400000000;
                                         tzinfo := Some 0 |};
                        duration := Some (48 * us_per_hour);
                        value_mm := Some 1%Q |} ];
       pop := []; raw := None |}
  = Raise (OverflowError "date value out of range").
Proof. reflexivity. Qed.

(** C4 (amended). [compute_72h_rain_mm] returns a total exactly when the end
    of the window and the end of every complete period are datetimes in range
    (it raises [OverflowError] otherwise), and the total it returns is the
    sum, over the complete periods of the forecast, of
    [value_mm * (overlap_hours / period_duration_hours)] with the window
    [[now, now + 72h)]: a period inside the window counts in full, a period
    whose overlap is half its duration counts for half, a period without
    positive overlap counts for nothing, and an entry whose duration is zero
    or negative is skipped before any division. *)
Theorem compute_72h_rain_mm_prorated now fc :
  ((∃ total, compute_72h_rain_mm now fc = Ok total) ↔ no_overflow now fc)
  ∧ (∀ total, compute_72h_rain_mm now fc = Ok total →
       (total == Qsum (prorated now <$> periods fc))%Q)
  ∧ (∀ p, now <= p_start p → p_start p + p_duration p <= now + window_us →
          0 < p_duration p → (prorated now p == p_value_mm p)%Q)
  ∧ (∀ p, 0 < p_duration p → 2 * overlap_us now p = p_duration p →
          (prorated now p == p_value_mm p / 2)%Q)
  ∧ (∀ p, overlap_us now p <= 0 → prorated now p = 0%Q)
  ∧ (∀ e p, period_of_entry e = Some p → p_duration p <= 0 →
          entry_overflows e = false →
          qpf_contribution (window_start now) (window_end now) e = Ok None
          ∧ prorated now p = 0%Q).
Proof.
  split; [| split; [apply compute_72h_rain_mm_total |]].
  { split.
    - intros [total H]. by eapply compute_72h_rain_mm_returns.
    - intros H. destruct (compute_72h_rain_mm_sum now fc H) as (t & Ht & _).
      by exists t. }
  split; [| split; [| split]].
  - intros p H1 H2 Hd.
    assert (overlap_us now p = p_duration p) as Ho by (unfold overlap_us; lia).
    rewrite prorated_share by lia. rewrite Ho, (hours_ratio_self _ Hd). ring.
  - intros p Hd Ho.
    rewrite prorated_share by lia.
    rewrite <- Ho, hours_ratio_half by lia. field.
  - apply prorated_skip.
  - intros e p Hp Hd He.
    destruct (qpf_contribution_period now e p Hp He) as [[Ho H] | (_ & Hd' & _)];
      [| lia].
    split; [done | by apply prorated_skip].
Qed.

(** A forecast of one period that starts at [t] and lasts [d] microseconds. *)
Lemma periods_single t d v :
  periods {| qpf := Some [ {| start := Some {| wall_us := t; tzinfo := Some 0 |};
                              duration := Some d; value_mm := Some v |} ];
             pop := []; raw := None |}
  = [ {| p_start := t; p_duration := d; p_value_mm := v |} ].
Proof. unfold periods, period_of_entry, instant. cbn. do 3 f_equal. lia. Qed.

(** One period inside the window (12 mm over the first hour) and one that
    straddles its start (10 mm over two hours, one of them before [now]). *)
Lemma compute_72h_rain_mm_prorated_witness :
  ∃ total,
    compute_72h_rain_mm 0
      {| qpf := Some [ {| start := Some {| wall_us := 0; tzinfo := Some 0 |};
                          duration := Some us_per_hour;
                          value_mm := Some 12%Q |};
                       {| start := Some {| wall_us := - us_per_hour; tzinfo := Some 0 |};
                          duration := Some (2 * us_per_hour);
                          value_mm := Some 10%Q |} ];
         pop := []; raw := None |}
    = Ok total
    ∧ (total == 17)%Q.
Proof.
  destruct (compute_72h_rain_mm_prorated 0
      {| qpf := Some [ {| start := Some {| wall_us := 0; tzinfo := Some 0 |};
                          duration := Some us_per_hour;
                          value_mm := Some 12%Q |};
                       {| start := Some {| wall_us := - us_per_hour; tzinfo := Some 0 |};
                          duration := Some (2 * us_per_hour);
                          value_mm := Some 10%Q |} ];
         pop := []; raw := None |}) as ([_ Hret] & Hsum & _).
  destruct Hret as [total Ht].
  { split; [reflexivity |]. repeat constructor. }
  exists total. split; [exact Ht |].
  rewrite (Hsum total Ht). by vm_compute.
Defined.

(** C5, as stated, fails: one period of one hour inside the window with a
    negative [value_mm] gives a negative total. *)
Lemma compute_72h_rain_mm_negative_counterexample :
  ∃ total,
    compute_72h_rain_mm 0
      {| qpf := Some [ {| start := Some {| wall_us := 0; tzinfo := Some 0 |};
                          duration := Some us_per_hour;
                          value_mm := Some (-5 # 1)%Q |} ];
         pop := []; raw := None |}
    = Ok total
    ∧ (total == -5 # 1)%Q ∧ (total < 0)%Q.
Proof. eexists. split; [reflexivity |]. split; [by vm_compute | by vm_compute]. Qed.

Lemma prorated_nonneg now p : (0 <= p_value_mm p)%Q → (0 <= prorated now p)%Q.
Proof.
  intros Hv. unfold prorated.
  destruct (Z.ltb_spec 0 (overlap_us now p)) as [Ho |]; [| apply Qle_refl].
  destruct (Z.ltb_spec 0 (p_duration p)) as [Hd |]; [| apply Qle_refl].
  cbn. apply Qmult_le_0_compat; [done |].
  apply Qle_shift_div_l; [by apply hours_pos |].
  rewrite Qmult_0_l. apply hours_nonneg. lia.
Qed.

Lemma Qsum_nonneg (l : list Q) : Forall (fun x => (0 <= x)%Q) l → (0 <= Qsum l)%Q.
Proof.
  induction 1 as [| x l Hx _ IH]; cbn; [apply Qle_refl |].
  change (0 + 0 <= x + Qsum l)%Q. by apply Qplus_le_compat.
Qed.

(** C5 (amended). When no period of the forecast has a negative [value_mm],
    every total [compute_72h_rain_mm] returns is non-negative, at every
    reference time; and it does return a total when the end of the window and
    the end of every period are datetimes in range. *)
Theorem compute_72h_rain_mm_nonneg now fc :
  Forall (fun p => (0 <= p_value_mm p)%Q) (periods fc) →
  (∀ total, compute_72h_rain_mm now fc = Ok total → (0 <= total)%Q)
  ∧ (no_overflow now fc →
     ∃ total, compute_72h_rain_mm now fc = Ok total ∧ (0 <= total)%Q).
Proof.
  intros Hv.
  assert (∀ total, compute_72h_rain_mm now fc = Ok total → (0 <= total)%Q) as H.
  { intros total Ht. rewrite (compute_72h_rain_mm_total _ _ _ Ht).
    apply Qsum_nonneg, Forall_fmap. eapply Forall_impl; [exact Hv |].
    intros p Hp. by apply prorated_nonneg. }
  split; [exact H |]. intros Hrange.
  destruct (compute_72h_rain_mm_sum now fc Hrange) as (t & Ht & _).
  exists t. split; [done | by apply H].
Qed.

Lemma compute_72h_rain_mm_nonneg_witness :
  ∃ total,
    compute_72h_rain_mm 0
      {| qpf := Some [ {| start := Some {| wall_us := 0; tzinfo := Some 0 |};
                          duration := Some us_per_hour;
                          value_mm := Some (5 # 2)%Q |} ];
         pop := []; raw := None |}
    = Ok total ∧ (0 <= total)%Q.
Proof.
  apply compute_72h_rain_mm_nonneg.
  - rewrite periods_single. repeat constructor. by vm_compute.
  - split; [reflexivity |]. repeat constructor.
Defined.

(** ** Strings *)

Lemma append_nil (s : string) : "" ++ s = s.
Proof. reflexivity. Qed.

Lemma append_cons x (a b : string) : String x a ++ b = String x (a ++ b).
Proof. reflexivity. Qed.

Lemma split_on_no_sep sep s : has_char sep s = false → split_on sep s = [s].
Proof.
  induction s as [| x s IH]; [done |].
  cbn [has_char split_on]. intros H. apply orb_false_iff in H as [Hx Hs].
  by rewrite Hx, (IH Hs).
Qed.

Lemma split_on_app sep a b :
  has_char sep a = false →
  split_on sep (a ++ String sep b) = a :: split_on sep b.
Proof.
  induction a as [| x a IH].
  - intros _. rewrite append_nil. cbn [split_on]. by rewrite Ascii.eqb_refl.
  - cbn [has_char]. intros H. apply orb_false_iff in H as [Hx Ha].
    rewrite append_cons. cbn [split_on]. by rewrite Hx, (IH Ha).
Qed.

Lemma startswith_app p s : startswith p (p ++ s) = true.
Proof.
  induction p as [| x p IH]; [done |].
  rewrite append_cons. cbn [startswith]. by rewrite Ascii.eqb_refl.
Qed.

Lemma endswith_unfold suf s :
  endswith suf s
  = String.eqb s suf || match s with
                        | EmptyString => false
                        | String _ s' => endswith suf s'
                        end.
Proof. by destruct s. Qed.

Lemma endswith_app a suf : endswith suf (a ++ suf) = true.
Proof.
  induction a as [| x a IH]; rewrite endswith_unfold.
  - by rewrite append_nil, String.eqb_refl.
  - rewrite append_cons, IH. apply orb_true_r.
Qed.

Lemma endswith_other_char a c c' :
  c' ≠ c → endswith (String c EmptyString) (a ++ String c' EmptyString) = false.
Proof.
  intros Hc. induction a as [| x a IH]; rewrite endswith_unfold.
  - rewrite append_nil. apply orb_false_iff. split; [| done].
    apply String.eqb_neq. congruence.
  - rewrite append_cons, IH. apply orb_false_iff. split; [| done].
    apply String.eqb_neq. intros [= _ H]. by destruct a.
Qed.

Lemma substring_app_prefix a b : substring 0 (String.length a) (a ++ b) = a.
Proof.
  induction a as [| x a IH].
  - rewrite append_nil. by destruct b.
  - rewrite append_cons. cbn [String.length substring]. by rewrite IH.
Qed.

Lemma length_app_string a b :
  String.length (a ++ b) = (String.length a + String.length b)%nat.
Proof.
  induction a as [| x a IH]; [done |].
  rewrite append_cons. cbn [String.length]. by rewrite IH.
Qed.

(** [("PT" + n + unit)[2:-1] = n]. *)
Lemma slice_duration n unit :
  slice_from_to_end 2 1 ("PT" ++ n ++ String unit EmptyString) = n.
Proof.
  unfold slice_from_to_end. rewrite !append_cons, append_nil.
  cbn [String.length substring]. rewrite length_app_string.
  cbn [String.length].
  replace (S (S (String.length n + 1)) - 1 - 2)%nat with (String.length n) by lia.
  apply substring_app_prefix.
Qed.

Lemma Qround_half_even_whole x z : (x == inject_Z z)%Q → Qround_half_even x = z.
Proof.
  intros H. unfold Qround_half_even.
  assert (Qfloor x = z) as -> by (rewrite H; apply Qfloor_Z).
  assert (x - inject_Z z == 0)%Q as E by (rewrite H; ring).
  by rewrite E.
Qed.

Lemma append_assoc_string (a b c : string) : (a ++ b) ++ c = a ++ (b ++ c).
Proof.
  induction a as [| x a IH]; [done |].
  by rewrite !append_cons, IH.
Qed.

Lemma hours_of_whole q us :
  (q * inject_Z us_per_hour == inject_Z us)%Q → (hours us == q)%Q.
Proof.
  intros H. unfold hours. rewrite <- H.
  change (inject_Z us_per_hour) with (3600000000 # 1)%Q. field.
Qed.

(** ** [_parse_valid_time] *)

Section ParseValidTime.

Variable py_float : string → option Q.
Variable fromisoformat : string → option datetime.

Lemma split_valid_time start_str n unit :
  has_char "/" start_str = false → has_char "/" n = false →
  Ascii.eqb unit "/" = false →
  split_on "/" (start_str ++ "/PT" ++ n ++ String unit EmptyString)
  = [start_str; "PT" ++ n ++ String unit EmptyString].
Proof.
  intros Hs Hn Hu.
  change ("/PT" ++ n ++ String unit EmptyString)
    with (String "/" ("PT" ++ n ++ String unit EmptyString)).
  rewrite (split_on_app _ _ _ Hs). f_equal.
  apply split_on_no_sep. rewrite !append_cons, append_nil.
  cbn [has_char]. change (Ascii.eqb "P" "/") with false.
  change (Ascii.eqb "T" "/") with false. cbn [orb].
  induction n as [| x n IH].
  - rewrite append_nil. cbn [has_char]. by rewrite Hu.
  - rewrite append_cons. cbn [has_char] in *.
    apply orb_false_iff in Hn as [Hx Hn]. rewrite Hx. by apply IH.
Qed.

Lemma duration_tests n unit :
  startswith "PT" ("PT" ++ n ++ String unit EmptyString) = true
  ∧ endswith (String unit EmptyString) ("PT" ++ n ++ String unit EmptyString) = true.
Proof.
  split; [apply startswith_app |].
  rewrite <- append_assoc_string. apply endswith_app.
Qed.

Lemma timedelta_hours_whole q us :
  (q * inject_Z us_per_hour == inject_Z us)%Q →
  timedelta_hours q
  = if in_timedelta_range us then Ok us
    else Raise (OverflowError "days; must have magnitude <= 999999999").
Proof.
  intros H. unfold timedelta_hours.
  by rewrite (Qround_half_even_whole _ _ H).
Qed.

Lemma whole_hours q k :
  (q == inject_Z k)%Q →
  (q * inject_Z us_per_hour == inject_Z (k * us_per_hour))%Q.
Proof. intros ->. by rewrite inject_Z_mult. Qed.

Lemma whole_minutes q k :
  (q == inject_Z k)%Q →
  (q / 60 * inject_Z us_per_hour == inject_Z (k * 60000000))%Q.
Proof.
  intros ->. rewrite inject_Z_mult.
  change (inject_Z us_per_hour) with (3600000000 # 1)%Q.
  change (inject_Z 60000000) with (60000000 # 1)%Q. field.
Qed.


End ParseValidTime.



(** ** Stage ingestion *)

Import IngestSpec.

Lemma ascending_last chron entries e :
  ascending chron (entries ++ [e]) → ∀ x, x ∈ entries → chron x <= chron e.
Proof.
  unfold ascending. induction entries as [| y entries IH]; intros Hs x Hx.
  - by apply elem_of_nil in Hx.
  - cbn in Hs. apply Sorted_inv in Hs as [Hs Hhd].
    assert (chron y <= chron e) as Hy.
    { destruct entries as [| z entries]; cbn in Hhd; apply HdRel_inv in Hhd.
      - done.
      - etransitivity; [exact Hhd |]. apply (IH Hs). left. }
    apply elem_of_cons in Hx as [-> | Hx]; [done | by apply IH].
Qed.

Section UsgsParsing.

Variable py_float : string → option Q.

#[local] Abbreviation series_step := (UsgsFetch.series_step py_float).
#[local] Abbreviation float_of_sample := (UsgsFetch.float_of_sample py_float).

(** A series whose last sample (by position) is readable sets the variable
    of its parameter code to that sample's value. *)
Lemma series_step_last code acc s entries e more v :
  code = "00065" ∨ code = "00060" →
  UsgsFetch.param_code s = Some code →
  values s = (entries ++ [e])%list :: more →
  float_of_sample e = Some v →
  kept code (series_step acc s) = Some v.
Proof.
  intros Hc Hp Hv Hf. unfold UsgsFetch.series_step.
  rewrite Hp, Hv, last_snoc, Hf. unfold kept.
  destruct Hc as [-> | ->]; by repeat (case_bool_decide; simplify_eq; cbn).
Qed.

(** A series with another parameter code leaves the variable alone. *)
Lemma series_step_other code acc s :
  UsgsFetch.param_code s ≠ Some code →
  kept code (series_step acc s) = kept code acc.
Proof.
  intros Hp. unfold UsgsFetch.series_step, kept.
  destruct (values s) as [| entries more]; [done |].
  destruct (last entries) as [e |]; [| done].
  destruct (float_of_sample e) as [v |]; [| done].
  repeat (case_bool_decide; simplify_eq; cbn); congruence.
Qed.

Lemma series_fold_other code post : ∀ acc,
  Forall (fun s' => UsgsFetch.param_code s' ≠ Some code) post →
  kept code (foldl series_step acc post) = kept code acc.
Proof.
  induction post as [| s post IH]; intros acc Hpost; [done |].
  apply Forall_cons in Hpost as [Hs Hpost]. cbn [foldl].
  by rewrite (IH _ Hpost), series_step_other.
Qed.

Lemma reading_of_payload_kept code gid payload v :
  kept code (foldl series_step UsgsFetch.no_reading (timeSeries payload)) = Some v →
  ∃ r, UsgsFetch.reading_of_payload py_float gid payload = Ok r
     ∧ retained code r = Some v.
Proof.
  unfold UsgsFetch.reading_of_payload, kept, retained.
  destruct (timeSeries payload) as [| s0 ts] eqn:Hts.
  { cbn. repeat case_bool_decide; discriminate. }
  set (acc := foldl series_step UsgsFetch.no_reading (s0 :: ts)).
  intros Hk.
  destruct (UsgsFetch.stage_ft acc) as [st |] eqn:Hst,
           (UsgsFetch.discharge_cfs acc) as [di |] eqn:Hdi;
    try (eexists; split; [reflexivity |]; cbn; by rewrite ?Hst, ?Hdi).
  repeat case_bool_decide; discriminate.
Qed.

End UsgsParsing.

Section UsgsFetching.

Variable py_float : string → option Q.
Variable World : Type.
Variable usgs_request : string → io World usgs_payload.

#[local] Abbreviation fetch_usgs_gauge_data :=
  (UsgsFetch.fetch_usgs_gauge_data py_float World usgs_request).

Lemma fetch_usgs_gauge_data_Ok gid w w' payload :
  usgs_request gid w = (w', Ok payload) →
  fetch_usgs_gauge_data gid w
  = (w', UsgsFetch.reading_of_payload py_float gid payload).
Proof.
  intros H. unfold UsgsFetch.fetch_usgs_gauge_data, io_bind, io_lift.
  by rewrite H.
Qed.

Lemma fetch_usgs_gauge_data_id gid w w' r :
  fetch_usgs_gauge_data gid w = (w', Ok r) → u_gauge_id r = gid.
Proof.
  unfold UsgsFetch.fetch_usgs_gauge_data, io_bind, io_lift.
  destruct (usgs_request gid w) as [w1 [payload | e]]; [| discriminate].
  unfold UsgsFetch.reading_of_payload.
  destruct (timeSeries payload); [discriminate |].
  destruct (UsgsFetch.stage_ft _), (UsgsFetch.discharge_cfs _);
    intros [= _ <-]; done.
Qed.

(** C6 (amended). For a parameter (stage 00065 or discharge 00060), the value
    [fetch_usgs_gauge_data] retains is that of the sample in the last
    position of the sample array of the last series of that parameter, when
    that sample's value is a number; it is the chronologically latest sample
    whenever the array is in ascending order of time. *)
Theorem fetch_usgs_retains_last_sample (chron : usgs_sample → Z)
    gid w w' payload pre s post entries e more code v :
  code = "00065" ∨ code = "00060" →
  usgs_request gid w = (w', Ok payload) →
  timeSeries payload = (pre ++ s :: post)%list →
  UsgsFetch.param_code s = Some code →
  Forall (fun s' => UsgsFetch.param_code s' ≠ Some code) post →
  values s = (entries ++ [e])%list :: more →
  UsgsFetch.float_of_sample py_float e = Some v →
  (∃ r, fetch_usgs_gauge_data gid w = (w', Ok r) ∧ retained code r = Some v)
  ∧ (ascending chron (entries ++ [e]) → ∀ x, x ∈ entries → chron x <= chron e).
Proof.
  intros Hc Hreq Hts Hp Hpost Hv Hf. split; [| apply ascending_last].
  rewrite (fetch_usgs_gauge_data_Ok _ _ _ _ Hreq).
  destruct (reading_of_payload_kept py_float code gid payload v) as (r & -> & Hr).
  - rewrite Hts, foldl_app. cbn [foldl].
    rewrite (series_fold_other _ _ _ _ Hpost).
    by eapply series_step_last.
  - by exists r.
Qed.

End UsgsFetching.

(** C6, as stated, fails: with the two samples of the stage series in
    descending order of time, the reading keeps the value 8.0 of the sample
    in last position, which is the earlier one, and not the 9.0 of the
    chronologically latest sample. *)
Lemma fetch_usgs_latest_counterexample :
  let late := {| sample_value := Some "9.0";
                 sample_dateTime := Some "2024-02-10T13:00:00.000-08:00" |} in
  let early := {| sample_value := Some "8.0";
                  sample_dateTime := Some "2024-02-10T12:00:00.000-08:00" |} in
  let payload := {| timeSeries :=
    [ {| variableCode := [Some "00065"]; values := [ [late; early] ] |} ] |} in
  sample_instant early < sample_instant late
  ∧ ∃ r v,
      UsgsFetch.fetch_usgs_gauge_data Sample.decimal_float unit
        (Sample.serve payload) "11425500" tt = (tt, Ok r)
      ∧ u_stage_ft r = Some v
      ∧ UsgsFetch.float_of_sample Sample.decimal_float early = Some v
      ∧ u_timestamp r = sample_dateTime early
      ∧ (v == 8)%Q
      ∧ ∃ v', UsgsFetch.float_of_sample Sample.decimal_float late = Some v'
            ∧ ¬ (v == v')%Q.
Proof.
  cbv zeta. split; [by vm_compute |].
  eexists _, _. split; [reflexivity |].
  split; [reflexivity |]. split; [reflexivity |]. split; [reflexivity |].
  split; [by vm_compute |].
  eexists. split; [reflexivity |]. by vm_compute.
Qed.

Lemma fetch_usgs_retains_last_sample_witness :
  let early := {| sample_value := Some "8.0";
                  sample_dateTime := Some "2024-02-10T12:00:00.000-08:00" |} in
  let late := {| sample_value := Some "8.5";
                 sample_dateTime := Some "2024-02-10T12:15:00.000-08:00" |} in
  let payload := {| timeSeries :=
    [ {| variableCode := [Some "00065"]; values := [ [early; late] ] |} ] |} in
  (∃ r, UsgsFetch.fetch_usgs_gauge_data Sample.decimal_float unit
          (Sample.serve payload) "11425500" tt = (tt, Ok r)
        ∧ retained "00065" r = UsgsFetch.float_of_sample Sample.decimal_float late)
  ∧ sample_instant early <= sample_instant late.
Proof.
  cbv zeta.
  destruct (fetch_usgs_retains_last_sample Sample.decimal_float unit
    (Sample.serve {| timeSeries :=
       [ {| variableCode := [Some "00065"];
            values := [ [ {| sample_value := Some "8.0";
                             sample_dateTime := Some "2024-02-10T12:00:00.000-08:00" |};
                          {| sample_value := Some "8.5";
                             sample_dateTime := Some "2024-02-10T12:15:00.000-08:00" |} ] ] |} ] |})
    sample_instant "11425500" tt tt _ [] _ []
    [ {| sample_value := Some "8.0";
         sample_dateTime := Some "2024-02-10T12:00:00.000-08:00" |} ]
    _ [] "00065" _
    (or_introl eq_refl) eq_refl eq_refl eq_refl (Forall_nil_2 _) eq_refl eq_refl)
    as [H1 H2].
  split; [exact H1 |].
  apply H2.
  - repeat constructor. by vm_compute.
  - left.
Defined.

(** ** Isolation of per-gauge failures *)

Lemma io_bind_Ok {World A B} (m : io World A) (k : A → io World B) w w' b :
  io_bind m k w = (w', Ok b) →
  ∃ w1 a, m w = (w1, Ok a) ∧ k a w1 = (w', Ok b).
Proof.
  unfold io_bind. destruct (m w) as [w1 [a | e]]; [| discriminate]. eauto.
Qed.

Lemma keyed_insert {E} (id_of : E → string) results k e :
  id_of e = k → keyed id_of results → keyed id_of (<[k := e]> results).
Proof.
  intros He Hk k' e' H. destruct (decide (k = k')) as [<- | Hne].
  - rewrite lookup_insert_eq in H. congruence.
  - rewrite lookup_insert_ne in H by done. by apply Hk.
Qed.

Section UsgsLoop.

Variable py_float : string → option Q.
Variable World : Type.
Variable usgs_request : string → io World usgs_payload.
Variable read_config : string → io World config_doc.

#[local] Abbreviation fetch_step :=
  (UsgsFetch.fetch_step py_float World usgs_request).

(** One iteration: a gauge with an identifier gets an entry under that
    identifier, a reading or the marker of the exception; the others are
    skipped. *)
Lemma fetch_step_entry w results g :
  if nonempty (gauge_id_of g) then
    ∃ w' entry,
      fetch_step (w, results) g = (w', <[gauge_id_of g := entry]> results)
      ∧ usgs_entry_gauge_id entry = gauge_id_of g
  else fetch_step (w, results) g = (w, results).
Proof.
  unfold UsgsFetch.fetch_step.
  destruct (nonempty (gauge_id_of g)) eqn:Hne; [| done].
  destruct (UsgsFetch.fetch_usgs_gauge_data _ _ _ _ w) as [w' [r | exc]] eqn:Hf.
  - exists w', (UsgsReading r). split; [done |].
    cbn. by eapply fetch_usgs_gauge_data_id.
  - by exists w', (UsgsError (gauge_id_of g) (exn_str exc)).
Qed.

Lemma fetch_step_raise w results g w' exc :
  nonempty (gauge_id_of g) = true →
  UsgsFetch.fetch_usgs_gauge_data py_float World usgs_request (gauge_id_of g) w
  = (w', Raise exc) →
  fetch_step (w, results) g
  = (w', <[gauge_id_of g := UsgsError (gauge_id_of g) (exn_str exc)]> results).
Proof. intros Hne Hf. unfold UsgsFetch.fetch_step. by rewrite Hne, Hf. Qed.

Lemma fetch_fold gauges : ∀ w results,
  ∃ w' results',
    foldl fetch_step (w, results) gauges = (w', results')
    ∧ dom results' = dom results ∪ list_to_set (usgs_keys gauges)
    ∧ (keyed usgs_entry_gauge_id results → keyed usgs_entry_gauge_id results').
Proof.
  induction gauges as [| g gauges IH]; intros w results.
  - exists w, results. split; [done |]. split; [| done]. set_solver.
  - cbn [foldl]. pose proof (fetch_step_entry w results g) as Hstep.
    unfold usgs_keys. rewrite fmap_cons, filter_cons.
    destruct (nonempty (gauge_id_of g)) eqn:Hne.
    + destruct Hstep as (w1 & entry & -> & Hid).
      destruct (IH w1 (<[gauge_id_of g := entry]> results))
        as (w' & results' & -> & Hdom & Hkeyed).
      exists w', results'. split; [done |]. split.
      * rewrite decide_True by done. rewrite Hdom, dom_insert_L.
        fold (usgs_keys gauges). set_solver.
      * intros Hk. by apply Hkeyed, keyed_insert.
    + rewrite Hstep. rewrite decide_False by (by intros ?).
      apply IH.
Qed.

Lemma fetch_all_gauges_entries path w w1 cfg :
  read_config path w = (w1, Ok cfg) →
  ∃ w2 results,
    UsgsFetch.fetch_all_gauges py_float World usgs_request read_config path w
    = (w2, Ok results)
    ∧ dom results = list_to_set (usgs_keys (default [] (cfg_gauges cfg)))
    ∧ keyed usgs_entry_gauge_id results.
Proof.
  intros Hcfg.
  unfold UsgsFetch.fetch_all_gauges, UsgsFetch._load_gauge_config, io_bind, io_ret.
  rewrite Hcfg.
  destruct (fetch_fold (default [] (cfg_gauges cfg)) w1 ∅)
    as (w2 & results & -> & Hdom & Hkeyed).
  exists w2, results. split; [done |]. split.
  - rewrite Hdom. set_solver.
  - apply Hkeyed. intros k e H. by rewrite lookup_empty in H.
Qed.

End UsgsLoop.

Section ForecastLoop.

Variable py_float : string → option Q.
Variable fromisoformat : string → option datetime.
Variable World : Type.
Variable points_request : Q → Q → io World points_payload.
Variable forecast_request : string → io World nws_payload.
Variable clock : World → World * Z.
Variable read_config : string → io World config_doc.

#[local] Abbreviation forecast_for_gauge :=
  (NwsFetch.forecast_for_gauge py_float fromisoformat World points_request
     forecast_request clock).
#[local] Abbreviation forecast_step :=
  (NwsFetch.forecast_step py_float fromisoformat World points_request
     forecast_request clock).

Lemma forecast_for_gauge_id gid lat lon w w' r :
  forecast_for_gauge gid lat lon w = (w', Ok r) → r_gauge_id r = gid.
Proof.
  unfold NwsFetch.forecast_for_gauge. intros H.
  apply io_bind_Ok in H as (w1 & meta & _ & H).
  apply io_bind_Ok in H as (w2 & fc & _ & H).
  apply io_bind_Ok in H as (w3 & now & _ & H).
  apply io_bind_Ok in H as (w4 & rain & _ & H).
  unfold io_ret in H. by injection H as _ <-.
Qed.

Lemma forecast_step_entry w results g :
  if forecast_guard g then
    ∃ w' entry,
      forecast_step (w, results) g = (w', <[gauge_id_of g := entry]> results)
      ∧ rain_entry_gauge_id entry = gauge_id_of g
  else forecast_step (w, results) g = (w, results).
Proof.
  unfold NwsFetch.forecast_step, forecast_guard.
  destruct (nonempty (gauge_id_of g)) eqn:Hne; [| done].
  destruct (g_latitude g) as [lat |]; [| done].
  destruct (g_longitude g) as [lon |]; [| done].
  rewrite !bool_decide_eq_true_2 by eauto. cbn [andb].
  destruct (forecast_for_gauge _ lat lon w) as [w' [r | exc]] eqn:Hf.
  - exists w', (RainEstimate r). split; [done |].
    cbn. by eapply forecast_for_gauge_id.
  - by exists w', (RainError (gauge_id_of g) (exn_str exc)).
Qed.

Lemma forecast_step_raise w results g lat lon w' exc :
  nonempty (gauge_id_of g) = true →
  g_latitude g = Some lat → g_longitude g = Some lon →
  forecast_for_gauge (gauge_id_of g) lat lon w = (w', Raise exc) →
  forecast_step (w, results) g
  = (w', <[gauge_id_of g := RainError (gauge_id_of g) (exn_str exc)]> results).
Proof.
  intros Hne Hlat Hlon Hf. unfold NwsFetch.forecast_step.
  by rewrite Hne, Hlat, Hlon, Hf.
Qed.

Lemma forecast_fold gauges : ∀ w results,
  ∃ w' results',
    foldl forecast_step (w, results) gauges = (w', results')
    ∧ dom results' = dom results ∪ list_to_set (forecast_keys gauges)
    ∧ (keyed rain_entry_gauge_id results → keyed rain_entry_gauge_id results').
Proof.
  induction gauges as [| g gauges IH]; intros w results.
  - exists w, results. split; [done |]. split; [| done]. set_solver.
  - cbn [foldl]. pose proof (forecast_step_entry w results g) as Hstep.
    unfold forecast_keys. rewrite filter_cons.
    destruct (forecast_guard g) eqn:Hg.
    + destruct Hstep as (w1 & entry & -> & Hid).
      destruct (IH w1 (<[gauge_id_of g := entry]> results))
        as (w' & results' & -> & Hdom & Hkeyed).
      exists w', results'. split; [done |]. split.
      * rewrite decide_True by done. rewrite fmap_cons, Hdom, dom_insert_L.
        fold (forecast_keys gauges). set_solver.
      * intros Hk. by apply Hkeyed, keyed_insert.
    + rewrite Hstep. rewrite decide_False by (by intros ?).
      apply IH.
Qed.

Lemma fetch_all_gauges_forecast_entries path w w1 cfg :
  read_config path w = (w1, Ok cfg) →
  ∃ w2 results,
    NwsFetch.fetch_all_gauges_forecast py_float fromisoformat World
      points_request forecast_request clock read_config path w
    = (w2, Ok results)
    ∧ dom results = list_to_set (forecast_keys (default [] (cfg_gauges cfg)))
    ∧ keyed rain_entry_gauge_id results.
Proof.
  intros Hcfg.
  unfold NwsFetch.fetch_all_gauges_forecast, NwsFetch._load_gauge_config,
    io_bind, io_ret.
  rewrite Hcfg.
  destruct (forecast_fold (default [] (cfg_gauges cfg)) w1 ∅)
    as (w2 & results & -> & Hdom & Hkeyed).
  exists w2, results. split; [done |]. split.
  - rewrite Hdom. set_solver.
  - apply Hkeyed. intros k e H. by rewrite lookup_empty in H.
Qed.

End ForecastLoop.




(** * Further properties of the code *)

(** ** Risk classification: monotonicity, the ratio field, malformed thresholds *)

Import MoreSpec.

Ltac to_Q_order :=
  repeat match goal with
         | H : Qleb _ _ = true |- _ => apply Qleb_le in H
         | H : Qleb _ _ = false |- _ => apply Qleb_gt in H
         | H : Qgtb _ _ = true |- _ => apply Qgtb_gt in H
         | H : Qgtb _ _ = false |- _ => apply Qgtb_le in H
         end.

Lemma band_rule_mono x y l m h :
  (x <= y)%Q → rank (band_rule x l m h) <= rank (band_rule y l m h).
Proof.
  intros Hxy. unfold band_rule.
  destruct (Qleb x m) eqn:A, (Qleb x l) eqn:B, (Qgtb x h) eqn:C,
           (Qleb y m) eqn:D, (Qleb y l) eqn:E, (Qgtb y h) eqn:F;
    try (by vm_compute); exfalso; to_Q_order; lra.
Qed.

Lemma band_rule_known x l m h : band_rule x l m h ≠ "UNKNOWN".
Proof.
  unfold band_rule. by destruct (Qleb x m), (Qleb x l), (Qgtb x h).
Qed.

Lemma rank_max_by a b : rank (max_by rank a b) = Z.max (rank a) (rank b).
Proof. unfold max_by. destruct (Z.ltb_spec (rank a) (rank b)); lia. Qed.

(** X1. More rain never lowers the rainfall sub-risk, for every band dict with
    the three keys (ascending or not). *)
Theorem rain_risk_monotone th low medium high r1 r2 :
  has_bands th low medium high → (r1 <= r2)%Q →
  ∃ a b, _risk_from_rain (Some r1) th = Ok a
       ∧ _risk_from_rain (Some r2) th = Ok b
       ∧ rank a <= rank b.
Proof.
  intros Hb Hr. rewrite !(risk_from_rain_bands _ _ _ _ _ Hb).
  eexists _, _. split; [done |]. split; [done |]. by apply band_rule_mono.
Qed.

Lemma rain_risk_monotone_witness :
  ∃ a b, _risk_from_rain (Some 40%Q) (bands_of 0 50 150) = Ok a
       ∧ _risk_from_rain (Some 200%Q) (bands_of 0 50 150) = Ok b
       ∧ rank a <= rank b.
Proof.
  apply (rain_risk_monotone (bands_of 0 50 150) 0 50 150 40 200).
  - repeat split; reflexivity.
  - discriminate.
Defined.

Lemma Qdiv_le_pos a b c : (0 < c)%Q → (a <= b)%Q → (a / c <= b / c)%Q.
Proof.
  intros Hc Hab. unfold Qdiv. apply Qmult_le_compat_r; [done |].
  apply Qlt_le_weak. by apply Qinv_lt_0_compat.
Qed.

Lemma Qis_zero_pos c : (0 < c)%Q → Qis_zero c = false.
Proof.
  intros Hc. destruct (Qis_zero c) eqn:Hz; [| done].
  apply Qis_zero_eq in Hz. rewrite Hz in Hc. by apply Qlt_irrefl in Hc.
Qed.

(** X2. With complete thresholds and a positive flood stage, more rain and a
    higher stage never lower the overall risk nor either sub-risk. *)
Theorem classify_gauge_monotone gid th s1 s2 f r1 r2 :
  complete th → (0 < f)%Q → (s1 <= s2)%Q → (r1 <= r2)%Q →
  ∃ a b, classify_gauge gid (Some s1) (Some f) (Some r1) th = Ok a
       ∧ classify_gauge gid (Some s2) (Some f) (Some r2) th = Ok b
       ∧ rank (rain_risk a) <= rank (rain_risk b)
       ∧ rank (stage_risk a) <= rank (stage_risk b)
       ∧ rank (risk a) <= rank (risk b).
Proof.
  intros Hth Hf Hs Hr.
  destruct (classify_gauge_total gid (Some s1) (Some f) (Some r1) th Hth) as [a Ha].
  destruct (classify_gauge_total gid (Some s2) (Some f) (Some r2) th Hth) as [b Hb].
  exists a, b. split; [done |]. split; [done |].
  destruct (classify_gauge_fields _ _ _ _ _ _ Ha)
    as (rt & st & Hrt & Hst & Hra & Hsa & Hca & _).
  destruct (classify_gauge_fields _ _ _ _ _ _ Hb)
    as (rt' & st' & Hrt' & Hst' & Hrb & Hsb & Hcb & _).
  assert (rt' = rt) as -> by congruence. assert (st' = st) as -> by congruence.
  destruct Hth as (rt0 & st0 & Hrt0 & Hst0 & (l1 & m1 & h1 & Hb1) & (l2 & m2 & h2 & Hb2)).
  assert (rt0 = rt) as -> by congruence. assert (st0 = st) as -> by congruence.
  pose proof (Qis_zero_pos f Hf) as Hz.
  rewrite (risk_from_rain_bands _ _ _ _ _ Hb1) in Hra.
  rewrite (risk_from_rain_bands _ _ _ _ _ Hb1) in Hrb.
  rewrite (risk_from_stage_bands _ _ _ _ _ _ Hb2 Hz) in Hsa.
  rewrite (risk_from_stage_bands _ _ _ _ _ _ Hb2 Hz) in Hsb.
  injection Hra as Hra. injection Hrb as Hrb.
  injection Hsa as Hsa. injection Hsb as Hsb.
  assert (rank (rain_risk a) <= rank (rain_risk b)) as H1.
  { rewrite <- Hra, <- Hrb. by apply band_rule_mono. }
  assert (rank (stage_risk a) <= rank (stage_risk b)) as H2.
  { rewrite <- Hsa, <- Hsb. by apply band_rule_mono, Qdiv_le_pos. }
  split; [done |]. split; [done |].
  rewrite Hca, Hcb, !rank_max_by. lia.
Qed.

Lemma classify_gauge_monotone_witness :
  ∃ a b, classify_gauge "123" (Some 5%Q) (Some 10%Q) (Some 10%Q) fixture_thresholds = Ok a
       ∧ classify_gauge "123" (Some 8%Q) (Some 10%Q) (Some 60%Q) fixture_thresholds = Ok b
       ∧ rank (rain_risk a) <= rank (rain_risk b)
       ∧ rank (stage_risk a) <= rank (stage_risk b)
       ∧ rank (risk a) <= rank (risk b).
Proof.
  apply classify_gauge_monotone.
  - exists (bands_of 0 50 150), (bands_of (7 # 10) (9 # 10) 1).
    split; [reflexivity |]. split; [reflexivity |].
    split; do 3 eexists; repeat split; reflexivity.
  - reflexivity.
  - discriminate.
  - discriminate.
Defined.

Lemma risk_from_stage_known s f st r :
  Qis_zero f = false → _risk_from_stage (Some s) (Some f) st = Ok r →
  r ≠ "UNKNOWN".
Proof.
  intros Hz H. unfold _risk_from_stage in H. rewrite Hz in H.
  rewrite (py_div_nonzero _ _ Hz) in H. cbn in H.
  bind_cases; injection H as <-; discriminate.
Qed.

(** X3. Whenever [classify_gauge] returns, the [stage_ratio] field is absent
    exactly when the stage sub-risk is UNKNOWN, that is when the stage or the
    flood stage is absent or the flood stage is zero; otherwise it is
    [stage_ft / flood_stage_ft]; and the identifier and the three inputs are
    echoed unchanged. *)
Theorem classify_gauge_ratio_field gid stage flood rain th res :
  classify_gauge gid stage flood rain th = Ok res →
  (stage_ratio res = None ↔ stage_risk res = "UNKNOWN")
  ∧ (stage_ratio res = None ↔
     stage = None ∨ flood = None ∨ ∃ f, flood = Some f ∧ (f == 0)%Q)
  ∧ (∀ s f, stage = Some s → flood = Some f → ¬ (f == 0)%Q →
       stage_ratio res = Some (s / f)%Q)
  ∧ gauge_id res = gid
  ∧ inputs res = {| in_stage_ft := stage; in_flood_stage_ft := flood;
                    in_rain_mm_72h := rain |}.
Proof.
  intros H. pose proof H as H0. unfold classify_gauge, getitem in H.
  destruct (th !! "rainfall_mm_72h") as [rt|]; [|discriminate].
  destruct (th !! "river_stage_ratio") as [st|]; [|discriminate].
  cbn in H.
  destruct (_risk_from_rain rain rt) as [rr|]; [|discriminate].
  destruct (_risk_from_stage stage flood st) as [sr|] eqn:Hsr; [|discriminate].
  cbn in H.
  destruct stage as [s|], flood as [f|]; cbn in H.
  - destruct (Qis_zero f) eqn:Hz.
    + cbn in H. injection H as <-. cbn.
      unfold _risk_from_stage in Hsr. rewrite Hz in Hsr. injection Hsr as <-.
      apply Qis_zero_eq in Hz.
      repeat split; auto; try by intros _.
      * intros _. right. right. by exists f.
      * intros s' f' [= <-] [= <-] Hne. by destruct Hne.
    + rewrite (py_div_nonzero _ _ Hz) in H. cbn in H. injection H as <-. cbn.
      pose proof (risk_from_stage_known _ _ _ _ Hz Hsr) as Hk.
      assert (¬ (f == 0)%Q) as Hne.
      { intros Hf. apply Qis_zero_eq in Hf. congruence. }
      repeat split; auto; try discriminate; try (by intros ?).
      * intros [? | [? | (f' & [= <-] & Hf')]]; try discriminate. by destruct Hne.
      * by intros s' f' [= <-] [= <-] _.
  - injection H as <-. cbn. injection Hsr as <-.
    repeat split; auto; try discriminate.
  - injection H as <-. cbn. injection Hsr as <-.
    repeat split; auto; try discriminate.
  - injection H as <-. cbn. injection Hsr as <-.
    repeat split; auto; try discriminate.
Qed.

Lemma classify_gauge_ratio_field_witness :
  ∃ res,
    classify_gauge "123" (Some 7%Q) (Some 10%Q) (Some 60%Q) fixture_thresholds
    = Ok res
    ∧ stage_ratio res = Some (7 / 10)%Q
    ∧ (stage_ratio res = None ↔ stage_risk res = "UNKNOWN").
Proof.
  eexists. split; [reflexivity |].
  destruct (classify_gauge_ratio_field "123" (Some 7%Q) (Some 10%Q) (Some 60%Q)
              fixture_thresholds _ eq_refl) as (H1 & _ & H3 & _).
  split; [| exact H1].
  apply (H3 7%Q 10%Q eq_refl eq_refl). discriminate.
Defined.

(** X4. Malformed thresholds: the two top-level keys are read before anything
    else, so a missing one raises [KeyError] for every input; a band key is
    read only when its input is present, so a rainfall band dict without
    [medium] raises as soon as a rainfall is given, while with the rainfall and
    the stage absent no band dict is read at all. *)
Theorem classify_gauge_malformed_thresholds gid stage flood rain th :
  (th !! "rainfall_mm_72h" = None →
   classify_gauge gid stage flood rain th = Raise (KeyError "rainfall_mm_72h"))
  ∧ (is_Some (th !! "rainfall_mm_72h") → th !! "river_stage_ratio" = None →
     classify_gauge gid stage flood rain th = Raise (KeyError "river_stage_ratio"))
  ∧ (∀ rt st r, th !! "rainfall_mm_72h" = Some rt →
       th !! "river_stage_ratio" = Some st →
       rain = Some r → rt !! "medium" = None →
       classify_gauge gid stage flood rain th = Raise (KeyError "medium"))
  ∧ (is_Some (th !! "rainfall_mm_72h") → is_Some (th !! "river_stage_ratio") →
     rain = None → stage = None ∨ flood = None →
     ∃ res, classify_gauge gid stage flood rain th = Ok res
          ∧ risk res = "UNKNOWN").
Proof.
  unfold classify_gauge, getitem. split; [| split; [| split]].
  - by intros ->.
  - by intros [rt ->] ->.
  - intros rt st r -> -> -> Hm. cbn. unfold getitem. by rewrite Hm.
  - intros [rt ->] [st ->] -> Hs. cbn.
    destruct Hs as [-> | ->]; [| destruct stage]; cbn; eauto.
Qed.

Lemma classify_gauge_malformed_thresholds_witness :
  classify_gauge "123" (Some 7%Q) (Some 10%Q) (Some 60%Q)
    (<["river_stage_ratio" := bands_of (7 # 10) (9 # 10) 1]> ∅)
  = Raise (KeyError "rainfall_mm_72h")
  ∧ ∃ res, classify_gauge "123" None (Some 10%Q) None
             (<["rainfall_mm_72h" := ∅]> (<["river_stage_ratio" := ∅]> ∅))
           = Ok res ∧ risk res = "UNKNOWN".
Proof.
  split.
  - by apply (classify_gauge_malformed_thresholds "123" (Some 7%Q) (Some 10%Q)
                (Some 60%Q)).
  - apply (classify_gauge_malformed_thresholds "123" None (Some 10%Q) None);
      [by eexists | by eexists | done | by left].
Defined.

(** ** [classify_all]: the entries, the flood-stage lookup, failed fetches *)

Lemma classify_fold_keeps rd lk th l : ∀ m0 res k,
  k ∉ l.*1 →
  foldl (classify_step rd lk th) (Ok m0) l = Ok res →
  res !! k = m0 !! k.
Proof.
  induction l as [| [k' obs] l IH]; intros m0 res k Hk H.
  - by injection H as <-.
  - change (foldl (classify_step rd lk th)
              (classify_step rd lk th (Ok m0) (k', obs)) l = Ok res) in H.
    rewrite classify_step_Ok in H.
    rewrite fmap_cons in Hk. apply not_elem_of_cons in Hk as [Hne Hk]. cbn in Hne.
    destruct (classify_gauge k' _ _ _ th) as [a | e].
    + rewrite (IH _ _ _ Hk H). by apply lookup_insert_ne.
    + by rewrite classify_fold_raise in H.
Qed.

Lemma classify_fold_entry rd lk th l : ∀ m0 res k obs,
  NoDup l.*1 → (k, obs) ∈ l →
  foldl (classify_step rd lk th) (Ok m0) l = Ok res →
  ∃ a, res !! k = Some a
     ∧ classify_gauge k (usgs_get_stage_ft obs) (mjoin (lk !! k))
         (rd !! k ≫= rain_get_rain_72h_mm) th = Ok a.
Proof.
  induction l as [| [k' obs'] l IH]; intros m0 res k obs Hnd Hin H.
  - by apply elem_of_nil in Hin.
  - change (foldl (classify_step rd lk th)
              (classify_step rd lk th (Ok m0) (k', obs')) l = Ok res) in H.
    rewrite classify_step_Ok in H.
    rewrite fmap_cons in Hnd. apply NoDup_cons in Hnd as [Hk' Hnd]. cbn in Hk'.
    destruct (classify_gauge k' _ _ _ th) as [a | e] eqn:Hc;
      [| by rewrite classify_fold_raise in H].
    apply elem_of_cons in Hin as [[= -> ->] | Hin].
    + exists a. split; [| done].
      rewrite (classify_fold_keeps _ _ _ _ _ _ _ Hk' H).
      apply lookup_insert_eq.
    + by eapply IH.
Qed.

(** X5. Every entry [classify_all] returns is the assessment [classify_gauge]
    gives that gauge from the stage of its USGS entry, the flood stage the
    configuration holds for it and the rainfall of its forecast entry. *)
Theorem classify_all_entries usgs_data rainfall_data gauge_config th res k obs :
  classify_all usgs_data rainfall_data gauge_config th = Ok res →
  usgs_data !! k = Some obs →
  ∃ a, res !! k = Some a
     ∧ classify_gauge k (usgs_get_stage_ft obs)
         (mjoin (flood_stage_lookup gauge_config !! k))
         (rainfall_data !! k ≫= rain_get_rain_72h_mm) th = Ok a.
Proof.
  unfold classify_all. intros H Hk.
  eapply classify_fold_entry; [apply NoDup_fst_map_to_list | | exact H].
  by apply elem_of_map_to_list.
Qed.

Lemma classify_all_entries_witness :
  let usgs_data : gmap string usgs_entry :=
    <["11425500" := UsgsError "11425500" "connection refused"]> ∅ in
  ∃ res a,
    classify_all usgs_data ∅ {| cfg_gauges := None |} fixture_thresholds = Ok res
    ∧ res !! "11425500" = Some a
    ∧ classify_gauge "11425500" None None None fixture_thresholds = Ok a.
Proof.
  cbv zeta.
  destruct (classify_all
              (<["11425500" := UsgsError "11425500" "connection refused"]> ∅)
              ∅ {| cfg_gauges := None |} fixture_thresholds) as [res | e] eqn:Hres;
    [| by vm_compute in Hres].
  destruct (classify_all_entries _ _ _ _ _
              "11425500" (UsgsError "11425500" "connection refused")
              Hres eq_refl) as (a & H1 & H2).
  exists res, a. split; [reflexivity |]. split; [exact H1 | exact H2].
Defined.

Lemma flood_stage_lookup_snoc items item :
  flood_stage_lookup {| cfg_gauges := Some (items ++ [item])%list |}
  = match g_id item with
    | Some i => <[py_str i := g_flood_stage_ft item]>
                  (flood_stage_lookup {| cfg_gauges := Some items |})
    | None => flood_stage_lookup {| cfg_gauges := Some items |}
    end.
Proof. unfold flood_stage_lookup. cbn. by rewrite foldl_app. Qed.

(** X6. The flood stage [classify_all] uses for an identifier is that of the last
    configured item whose [id], converted with [str], equals the identifier
    (so the integer id 11425500 serves the key "11425500"); items without an
    [id] key are ignored, and an identifier no item carries has none. *)
Theorem flood_stage_lookup_last items k :
  flood_stage_lookup {| cfg_gauges := Some items |} !! k
  = configured_flood_stage k items.
Proof.
  unfold configured_flood_stage.
  induction items as [| item items IH] using rev_ind; [done |].
  rewrite flood_stage_lookup_snoc, filter_app, filter_cons, filter_nil.
  destruct (g_id item) as [i |] eqn:Hi; cbn.
  - destruct (decide (py_str i = k)) as [<- | Hne].
    + rewrite decide_True by done. by rewrite lookup_insert_eq, last_snoc.
    + rewrite decide_False by congruence.
      rewrite lookup_insert_ne by done. by rewrite (right_id_L [] (++)).
  - rewrite decide_False by done. by rewrite (right_id_L [] (++)).
Qed.

Example flood_stage_lookup_duplicate :
  flood_stage_lookup
    {| cfg_gauges := Some
         [ {| g_id := Some (YStr "A"); g_latitude := None; g_longitude := None;
              g_flood_stage_ft := Some 30%Q |};
           {| g_id := None; g_latitude := None; g_longitude := None;
              g_flood_stage_ft := Some 99%Q |};
           {| g_id := Some (YStr "A"); g_latitude := None; g_longitude := None;
              g_flood_stage_ft := Some 25%Q |} ] |} !! "A"
  = Some (Some 25%Q).
Proof. reflexivity. Qed.

Lemma rank_lower_bound r : -1 <= rank r.
Proof. unfold rank. destruct (index_of r risk_order); lia. Qed.

Lemma classify_gauge_no_stage gid stage flood rain th a :
  stage = None ∨ flood = None →
  classify_gauge gid stage flood rain th = Ok a →
  stage_risk a = "UNKNOWN" ∧ stage_ratio a = None ∧ risk a = rain_risk a
  ∧ (rain = None → risk a = "UNKNOWN").
Proof.
  intros Hs H. unfold classify_gauge, getitem in H.
  destruct (th !! "rainfall_mm_72h") as [rt|]; [|discriminate].
  destruct (th !! "river_stage_ratio") as [st|]; [|discriminate].
  cbn in H.
  destruct (_risk_from_rain rain rt) as [rr|] eqn:Hrr; [|discriminate].
  assert (_risk_from_stage stage flood st = Ok "UNKNOWN") as Hsr.
  { destruct Hs as [-> | ->]; [done | by destruct stage]. }
  rewrite Hsr in H. cbn in H.
  assert (max_by rank rr "UNKNOWN" = rr) as Hmax.
  { unfold max_by. pose proof (rank_lower_bound rr).
    destruct (Z.ltb_spec (rank rr) (rank "UNKNOWN")) as [Hlt |]; [| done].
    change (rank "UNKNOWN") with (-1) in Hlt. lia. }
  rewrite Hmax in H.
  assert (rain = None → rr = "UNKNOWN") as Hrain.
  { intros ->. by injection Hrr as <-. }
  destruct Hs as [-> | ->]; [| destruct stage]; cbn in H; by injection H as <-.
Qed.

(** X7. A failed stage fetch surfaces as UNKNOWN, not as an error: for a gauge
    whose USGS entry is an error marker or holds no stage, or whose
    identifier has no flood stage in the configuration, the assessment
    [classify_all] returns has [stage_risk] UNKNOWN and no [stage_ratio], its
    overall risk is its rainfall risk, and it is UNKNOWN when the gauge has no
    rainfall estimate either. *)
Theorem classify_all_missing_stage usgs_data rainfall_data gauge_config th res k obs :
  classify_all usgs_data rainfall_data gauge_config th = Ok res →
  usgs_data !! k = Some obs →
  usgs_get_stage_ft obs = None
  ∨ mjoin (flood_stage_lookup gauge_config !! k) = None →
  ∃ a, res !! k = Some a
     ∧ stage_risk a = "UNKNOWN" ∧ stage_ratio a = None
     ∧ risk a = rain_risk a
     ∧ (rainfall_data !! k ≫= rain_get_rain_72h_mm = None → risk a = "UNKNOWN").
Proof.
  intros H Hk Hs. unfold classify_all in H.
  apply elem_of_map_to_list in Hk.
  destruct (classify_fold_entry _ _ _ _ _ _ _ _
              (NoDup_fst_map_to_list usgs_data) Hk H) as (a & Ha & Hc).
  exists a. split; [done |].
  by apply (classify_gauge_no_stage _ _ _ _ _ _ Hs Hc).
Qed.

Lemma classify_all_missing_stage_witness :
  let usgs_data : gmap string usgs_entry :=
    <["11425500" := UsgsError "11425500" "connection refused"]> ∅ in
  ∃ res a,
    classify_all usgs_data ∅ {| cfg_gauges := None |} fixture_thresholds = Ok res
    ∧ res !! "11425500" = Some a
    ∧ stage_risk a = "UNKNOWN" ∧ risk a = "UNKNOWN".
Proof.
  cbv zeta.
  destruct (classify_all
              (<["11425500" := UsgsError "11425500" "connection refused"]> ∅)
              ∅ {| cfg_gauges := None |} fixture_thresholds) as [res | e] eqn:Hres;
    [| by vm_compute in Hres].
  destruct (classify_all_missing_stage _ _ _ _ _
              "11425500" (UsgsError "11425500" "connection refused")
              Hres eq_refl (or_introl eq_refl)) as (a & H1 & H2 & _ & _ & H3).
  exists res, a. split; [reflexivity |]. split; [exact H1 |].
  split; [exact H2 | by apply H3].
Defined.

(** X8. [classify_all] reads the thresholds only inside the loop: with no USGS
    entry it returns the empty mapping whatever the thresholds hold, and with
    at least one entry thresholds without [rainfall_mm_72h] make it raise
    [KeyError] instead of returning any assessment. *)
Theorem classify_all_thresholds_read rainfall_data gauge_config th :
  classify_all ∅ rainfall_data gauge_config th = Ok ∅
  ∧ (∀ usgs_data, usgs_data ≠ ∅ → th !! "rainfall_mm_72h" = None →
       classify_all usgs_data rainfall_data gauge_config th
       = Raise (KeyError "rainfall_mm_72h")).
Proof.
  split.
  - unfold classify_all. by rewrite map_to_list_empty.
  - intros usgs_data Hne Hth. unfold classify_all.
    destruct (map_to_list usgs_data) as [| [k obs] l] eqn:Hl.
    + by apply map_to_list_empty_iff in Hl.
    + cbn [foldl]. rewrite classify_step_Ok.
      unfold classify_gauge, getitem. rewrite Hth. cbn.
      apply classify_fold_raise.
Qed.

Lemma classify_all_thresholds_read_witness :
  classify_all (<["11425500" := UsgsError "11425500" "connection refused"]> ∅)
    ∅ {| cfg_gauges := None |} ∅
  = Raise (KeyError "rainfall_mm_72h").
Proof.
  apply (classify_all_thresholds_read ∅ {| cfg_gauges := None |} ∅);
    [| reflexivity].
  intros H. apply (f_equal (lookup "11425500")) in H. discriminate H.
Defined.

(** ** The rainfall accumulator: bounds, the empty window, shifts in time *)

Lemma overlap_le_duration now p : overlap_us now p <= p_duration p.
Proof. unfold overlap_us. lia. Qed.

Lemma hours_le a b : a <= b → (hours a <= hours b)%Q.
Proof.
  intros H. unfold hours. apply Qdiv_le_pos; [reflexivity |].
  by rewrite <- Zle_Qle.
Qed.

Lemma prorated_le_value now p :
  (0 <= p_value_mm p)%Q → (prorated now p <= p_value_mm p)%Q.
Proof.
  intros Hv. unfold prorated.
  destruct (Z.ltb_spec 0 (overlap_us now p)) as [Ho |]; [| done].
  destruct (Z.ltb_spec 0 (p_duration p)) as [Hd |]; [| done].
  cbn. pose proof (hours_pos _ Hd) as Hpos.
  pose proof (hours_le _ _ (overlap_le_duration now p)) as Hle.
  assert (hours (overlap_us now p) / hours (p_duration p) <= 1)%Q as Hfrac.
  { apply Qle_shift_div_r; [done |]. by rewrite Qmult_1_l. }
  rewrite <- (Qmult_1_r (p_value_mm p)) at 2.
  rewrite !(Qmult_comm (p_value_mm p)).
  by apply Qmult_le_compat_r.
Qed.

Lemma Qsum_le (l1 l2 : list Q) :
  Forall2 Qle l1 l2 → (Qsum l1 <= Qsum l2)%Q.
Proof.
  induction 1 as [| x y l1 l2 Hxy _ IH]; cbn; [apply Qle_refl |].
  by apply Qplus_le_compat.
Qed.

(** X9. When no period has a negative [value_mm], every total
    [compute_72h_rain_mm] returns is at most the sum of the [value_mm] of the
    complete periods: a period never counts for more than its own amount; and
    it does return a total when the end of the window and the end of every
    period are datetimes in range. *)
Theorem compute_72h_rain_mm_upper_bound now fc :
  Forall (fun p => (0 <= p_value_mm p)%Q) (periods fc) →
  (∀ total, compute_72h_rain_mm now fc = Ok total →
     (total <= Qsum (p_value_mm <$> periods fc))%Q)
  ∧ (no_overflow now fc →
     ∃ total, compute_72h_rain_mm now fc = Ok total
            ∧ (total <= Qsum (p_value_mm <$> periods fc))%Q).
Proof.
  intros Hv.
  assert (∀ total, compute_72h_rain_mm now fc = Ok total →
            (total <= Qsum (p_value_mm <$> periods fc))%Q) as H.
  { intros total Ht. rewrite (compute_72h_rain_mm_total _ _ _ Ht).
    apply Qsum_le, Forall2_fmap, Forall_Forall2_diag.
    eapply Forall_impl; [exact Hv |].
    intros p Hp. by apply prorated_le_value. }
  split; [exact H |]. intros Hrange.
  destruct (compute_72h_rain_mm_sum now fc Hrange) as (t & Ht & _).
  exists t. split; [done | by apply H].
Qed.

Lemma compute_72h_rain_mm_upper_bound_witness :
  ∃ total,
    compute_72h_rain_mm 0
      {| qpf := Some [ {| start := Some {| wall_us := - us_per_hour; tzinfo := Some 0 |};
                          duration := Some (2 * us_per_hour);
                          value_mm := Some 10%Q |} ];
         pop := []; raw := None |}
    = Ok total
    ∧ (total <= Qsum [10%Q])%Q.
Proof.
  destruct (compute_72h_rain_mm_upper_bound 0
      {| qpf := Some [ {| start := Some {| wall_us := - us_per_hour; tzinfo := Some 0 |};
                          duration := Some (2 * us_per_hour);
                          value_mm := Some 10%Q |} ];
         pop := []; raw := None |}) as [_ H].
  - rewrite periods_single. repeat constructor. discriminate.
  - destruct H as (t & Ht & Hle).
    + split; [reflexivity |]. repeat constructor.
    + exists t. split; [exact Ht |]. by rewrite periods_single in Hle.
Defined.

Lemma outside_fold now l : ∀ acc,
  Forall (fun e => entry_overflows e = false) l →
  Forall (outside_window now) (omap period_of_entry l) →
  foldl (add_contribution (window_start now) (window_end now)) (Ok acc) l
  = Ok acc.
Proof.
  induction l as [| e l IH]; intros acc Hrange Hout; [done |].
  apply Forall_cons in Hrange as [He Hrange].
  cbn [foldl]. rewrite add_contribution_Ok. cbn [omap list_omap] in Hout.
  destruct (period_of_entry e) as [p |] eqn:Hp.
  - apply Forall_cons in Hout as [Hp_out Hout].
    destruct (qpf_contribution_period now e p Hp He)
      as [[_ ->] | (Ho & Hd & _)]; [by apply IH |].
    exfalso. unfold outside_window in Hp_out. unfold overlap_us in Ho. lia.
  - rewrite (qpf_contribution_incomplete _ _ _ Hp). by apply IH.
Qed.

(** X10. When the end of the window and the end of every period are datetimes
    in range, a forecast without a [qpf] list, with an empty one, or whose
    periods all end by [now], start at [now + 72h] or later, or have no
    positive duration, gives a total of exactly zero. *)
Theorem compute_72h_rain_mm_outside_window now fc :
  no_overflow now fc →
  Forall (outside_window now) (periods fc) →
  compute_72h_rain_mm now fc = Ok 0%Q.
Proof.
  intros [Hw Hl] H. rewrite compute_72h_rain_mm_window, Hw.
  by apply outside_fold.
Qed.

Lemma compute_72h_rain_mm_outside_window_witness :
  compute_72h_rain_mm 0
    {| qpf := Some [ {| start := Some {| wall_us := 72 * us_per_hour; tzinfo := Some 0 |};
                        duration := Some us_per_hour;
                        value_mm := Some 10%Q |} ];
       pop := []; raw := None |}
  = Ok 0%Q.
Proof.
  apply compute_72h_rain_mm_outside_window.
  - split; [reflexivity |]. repeat constructor.
  - rewrite periods_single.
    apply Forall_cons. split; [| apply Forall_nil_2].
    right. left. by vm_compute.
Defined.

Lemma instant_assume_utc_shift s delta :
  instant (assume_utc (dt_plus s delta)) = instant (assume_utc s) + delta.
Proof.
  destruct s as [w [off |]]; unfold assume_utc, dt_plus, instant; cbn; lia.
Qed.

Lemma entry_overflows_complete e s d v :
  start e = Some s → duration e = Some d → value_mm e = Some v →
  entry_overflows e = overflows (assume_utc s) d.
Proof. intros Hs Hd Hv. unfold entry_overflows. by rewrite Hs, Hd, Hv. Qed.

Lemma qpf_contribution_shift now delta e :
  entry_overflows e = false → entry_overflows (shift_entry delta e) = false →
  qpf_contribution (window_start (now + delta)) (window_end (now + delta))
    (shift_entry delta e)
  = qpf_contribution (window_start now) (window_end now) e.
Proof.
  unfold qpf_contribution, shift_entry, entry_overflows.
  cbn [start duration value_mm].
  destruct (start e) as [s |], (duration e) as [d |], (value_mm e) as [v |];
    try done.
  cbn [fmap option_fmap option_map].
  intros He He'. rewrite (dt_add_Ok _ _ He), (dt_add_Ok _ _ He'), !result_bind_Ok.
  pose proof (assume_utc_aware s) as Ha.
  pose proof (assume_utc_aware (dt_plus s delta)) as Ha'.
  pose proof (instant_assume_utc_shift s delta) as Hi.
  destruct (dt_max_aware _ _ Ha (window_start_aware now)) as (m1 & -> & A1 & E1).
  destruct (dt_max_aware _ _ Ha' (window_start_aware (now + delta)))
    as (m1' & -> & A1' & E1').
  destruct (dt_min_aware _ _ (dt_plus_aware _ d Ha) (window_end_aware now))
    as (m2 & -> & A2 & E2).
  destruct (dt_min_aware _ _ (dt_plus_aware _ d Ha') (window_end_aware (now + delta)))
    as (m2' & -> & A2' & E2').
  cbn. rewrite (dt_ge_aware _ _ A1 A2), (dt_ge_aware _ _ A1' A2').
  rewrite (dt_sub_aware _ _ A2 A1), (dt_sub_aware _ _ A2' A1').
  rewrite !instant_window_start in *. rewrite !instant_window_end in *.
  rewrite !instant_dt_plus in *.
  assert (instant m1' = instant m1 + delta) as -> by lia.
  assert (instant m2' = instant m2 + delta) as -> by lia.
  replace (instant m2 + delta <=? instant m1 + delta)
    with (instant m2 <=? instant m1)
    by (destruct (Z.leb_spec (instant m2) (instant m1)),
                 (Z.leb_spec (instant m2 + delta) (instant m1 + delta)); lia).
  by replace (instant m2 + delta - (instant m1 + delta))
    with (instant m2 - instant m1) by lia.
Qed.

Lemma shift_fold now delta l : ∀ acc,
  Forall (fun e => entry_overflows e = false) l →
  Forall (fun e => entry_overflows e = false) (shift_entry delta <$> l) →
  foldl (add_contribution (window_start (now + delta)) (window_end (now + delta)))
    acc (shift_entry delta <$> l)
  = foldl (add_contribution (window_start now) (window_end now)) acc l.
Proof.
  induction l as [| e l IH]; intros acc Hl Hl'; [done |].
  rewrite fmap_cons in *. apply Forall_cons in Hl as [He Hl].
  apply Forall_cons in Hl' as [He' Hl']. cbn [foldl].
  rewrite (IH _ Hl Hl'). f_equal.
  unfold add_contribution. by rewrite (qpf_contribution_shift _ _ _ He He').
Qed.

(** X11. Only the times relative to [now] matter: when no sum leaves the range
    of a datetime before or after the shift, shifting the reference time and
    the start of every entry by the same amount leaves the total unchanged. *)
Theorem compute_72h_rain_mm_shift now delta fc :
  no_overflow now fc → no_overflow (now + delta) (shift_forecast delta fc) →
  compute_72h_rain_mm (now + delta) (shift_forecast delta fc)
  = compute_72h_rain_mm now fc.
Proof.
  intros [Hw Hl] [Hw' Hl']. rewrite !compute_72h_rain_mm_window, Hw, Hw'.
  unfold shift_forecast in *. cbn [qpf] in *.
  destruct (qpf fc) as [l |]; [| done].
  by apply (shift_fold now delta l).
Qed.

Lemma compute_72h_rain_mm_shift_witness :
  compute_72h_rain_mm (0 + 24 * us_per_hour)
    (shift_forecast (24 * us_per_hour)
       {| qpf := Some [ {| start := Some {| wall_us := - us_per_hour; tzinfo := Some 0 |};
                           duration := Some (2 * us_per_hour);
                           value_mm := Some 10%Q |} ];
          pop := []; raw := None |})
  = compute_72h_rain_mm 0
      {| qpf := Some [ {| start := Some {| wall_us := - us_per_hour; tzinfo := Some 0 |};
                          duration := Some (2 * us_per_hour);
                          value_mm := Some 10%Q |} ];
         pop := []; raw := None |}.
Proof.
  apply compute_72h_rain_mm_shift.
  - split; [reflexivity |]. repeat constructor.
  - split; [reflexivity |]. repeat constructor.
Defined.

(** ** [_parse_valid_time]: other duration encodings and malformed text *)

Section ParseValidTimeEdges.

Variable py_float : string → option Q.
Variable fromisoformat : string → option datetime.

#[local] Abbreviation parse := (_parse_valid_time py_float fromisoformat).

Lemma split_two start_str d :
  has_char "/" start_str = false → has_char "/" d = false →
  split_on "/" (start_str ++ "/" ++ d) = [start_str; d].
Proof.
  intros Hs Hd. change ("/" ++ d) with (String "/" d).
  by rewrite (split_on_app _ _ _ Hs), (split_on_no_sep _ _ Hd).
Qed.

Lemma overflows_zero d : overflows d 0 = false.
Proof.
  unfold overflows. rewrite Z.add_0_r.
  by destruct (in_datetime_range (wall_us d)).
Qed.

(** X12. A duration that is not written [PT...H] or [PT...M] (a day-long [P1D], a
    composite [P1DT6H], seconds [PT30S]) is not rejected: the interval parses
    with a duration of zero, and the rainfall accumulator then skips the
    entry, whatever its amount. *)
Theorem parse_valid_time_other_duration start_str d dt :
  has_char "/" start_str = false → has_char "/" d = false →
  fromisoformat start_str = Some dt →
  startswith "PT" d && (endswith "H" d || endswith "M" d) = false →
  parse (start_str ++ "/" ++ d) = Ok (assume_utc dt, 0)
  ∧ ∀ now v,
      qpf_contribution (window_start now) (window_end now)
        {| start := Some (assume_utc dt); duration := Some 0;
           value_mm := Some v |}
      = Ok None.
Proof.
  intros Hs Hd Hiso Hform. split.
  - unfold _parse_valid_time. rewrite (split_two _ _ Hs Hd), Hiso.
    destruct (startswith "PT" d); [| reflexivity].
    cbn [andb] in *. apply orb_false_iff in Hform as [-> ->]. reflexivity.
  - intros now v.
    destruct (qpf_contribution_period now
                {| start := Some (assume_utc dt); duration := Some 0;
                   value_mm := Some v |} _ eq_refl (overflows_zero _))
      as [[_ H] | (_ & Hd0 & _)]; [done |].
    cbn in Hd0. lia.
Qed.

Lemma parse_valid_time_aware vt dt d : parse vt = Ok (dt, d) → aware dt.
Proof.
  unfold _parse_valid_time. intros H.
  destruct (split_on "/" vt) as [| s [| ds [| ? ?]]]; try discriminate.
  destruct (fromisoformat s) as [dt0 |]; [| discriminate].
  match type of H with
  | (?m ≫= _) = _ => destruct m as [hours |]; [| discriminate]
  end.
  rewrite result_bind_Ok in H.
  destruct (timedelta_hours hours) as [dur |]; [| discriminate].
  rewrite result_bind_Ok in H.
  assert (dt = assume_utc dt0) as -> by congruence.
  apply assume_utc_aware.
Qed.

Lemma split_on_length sep s :
  length (split_on sep s) = S (count_char sep s).
Proof.
  induction s as [| x s IH]; [done |]. cbn [split_on count_char].
  destruct (Ascii.eqb x sep); cbn [length]; [by rewrite IH |].
  by destruct (split_on sep s).
Qed.

(** X13. Malformed validity intervals raise [ValueError]: text that does not hold
    exactly one [/], a start that [datetime.fromisoformat] rejects, and an
    hour or minute count that [float] rejects (a composite [PT1H30M] reads
    the count [1H30]).  What is returned otherwise always carries a time
    zone. *)
Theorem parse_valid_time_malformed :
  (∀ vt, count_char "/" vt ≠ 1%nat → ∃ msg, parse vt = Raise (ValueError msg))
  ∧ (∀ start_str d, has_char "/" start_str = false → has_char "/" d = false →
       fromisoformat start_str = None →
       ∃ msg, parse (start_str ++ "/" ++ d) = Raise (ValueError msg))
  ∧ (∀ start_str n unit dt, unit = "H"%char ∨ unit = "M"%char →
       has_char "/" start_str = false → has_char "/" n = false →
       fromisoformat start_str = Some dt → py_float n = None →
       ∃ msg, parse (start_str ++ "/PT" ++ n ++ String unit EmptyString)
              = Raise (ValueError msg))
  ∧ (∀ vt dt d, parse vt = Ok (dt, d) → aware dt).
Proof.
  split; [| split; [| split]].
  - intros vt H. unfold _parse_valid_time.
    pose proof (split_on_length "/" vt) as Hlen.
    destruct (split_on "/" vt) as [| x [| y [| z l]]]; cbn in Hlen; eauto.
    lia.
  - intros start_str d Hs Hd Hiso. unfold _parse_valid_time.
    rewrite (split_two _ _ Hs Hd), Hiso. eauto.
  - intros start_str n unit dt Hu Hs Hn Hiso Hf. unfold _parse_valid_time.
    assert (Ascii.eqb unit "/" = false) as Hunit by (by destruct Hu as [-> | ->]).
    rewrite (split_valid_time _ _ _ Hs Hn Hunit), Hiso.
    destruct (duration_tests n unit) as [Hsw Hew]. rewrite Hsw.
    destruct Hu as [-> | ->].
    + rewrite Hew. cbn [andb]. unfold float_or_raise.
      rewrite slice_duration, Hf. cbn. eauto.
    + rewrite Hew.
      assert (endswith "H" ("PT" ++ n ++ "M") = false) as ->.
      { rewrite <- append_assoc_string. by apply endswith_other_char. }
      cbn [andb]. unfold float_or_raise.
      rewrite slice_duration, Hf. cbn. eauto.
  - apply parse_valid_time_aware.
Qed.

End ParseValidTimeEdges.

Lemma parse_valid_time_other_duration_witness :
  _parse_valid_time Sample.decimal_float Sample.iso_datetime
    "2024-02-10T00:00:00+00:00/P1D"
  = Ok ({| wall_us := 1707523200000000; tzinfo := Some 0 |}, 0).
Proof.
  by apply (parse_valid_time_other_duration Sample.decimal_float
              Sample.iso_datetime "2024-02-10T00:00:00+00:00" "P1D"
              {| wall_us := 1707523200000000; tzinfo := Some 0 |}).
Defined.

Lemma parse_valid_time_malformed_witness :
  ∃ msg, _parse_valid_time Sample.decimal_float Sample.iso_datetime
           "2024-02-10T00:00:00+00:00/PT1H30M"
         = Raise (ValueError msg).
Proof.
  destruct (parse_valid_time_malformed Sample.decimal_float Sample.iso_datetime)
    as (_ & _ & H & _).
  apply (H "2024-02-10T00:00:00+00:00" "1H30" "M"%char
           {| wall_us := 1707523200000000; tzinfo := Some 0 |});
    [by right | reflexivity | reflexivity | reflexivity | reflexivity].
Defined.

(** ** Forecast ingestion: metadata, parsed entries, the estimate *)

Section ForecastFetching.

Variable py_float : string → option Q.
Variable fromisoformat : string → option datetime.
Variable World : Type.
Variable points_request : Q → Q → io World points_payload.
Variable forecast_request : string → io World nws_payload.
Variable clock : World → World * Z.

#[local] Abbreviation get_point_metadata' :=
  (NwsFetch.get_point_metadata World points_request).
#[local] Abbreviation fetch_nws_forecast' :=
  (NwsFetch.fetch_nws_forecast py_float fromisoformat World forecast_request).
#[local] Abbreviation forecast_for_gauge' :=
  (NwsFetch.forecast_for_gauge py_float fromisoformat World points_request
     forecast_request clock).

Lemma nonempty_ne s : nonempty s = true ↔ s ≠ "".
Proof. by destruct s. Qed.

Lemma get_point_metadata_Ok lat lon w w' props meta :
  points_request lat lon w = (w', Ok props) → complete_points props meta →
  get_point_metadata' lat lon w = (w', Ok meta).
Proof.
  intros Hreq (H1 & H2 & H3 & H4 & H5 & H6).
  unfold NwsFetch.get_point_metadata, io_bind. rewrite Hreq, H1, H2, H3, H4.
  apply nonempty_ne in H5, H6. rewrite H5, H6. cbn. by destruct meta.
Qed.

(** X14. [get_point_metadata] returns the grid reference exactly when the points
    payload holds all four properties with a non-empty [gridId] and forecast
    address (a grid coordinate of zero is accepted); on any other payload it
    raises [ValueError], and an exception of the request passes through
    unchanged. *)
Theorem get_point_metadata_complete lat lon w w' :
  (∀ props, points_request lat lon w = (w', Ok props) →
     (∀ meta, get_point_metadata' lat lon w = (w', Ok meta)
              ↔ complete_points props meta)
     ∧ ((∀ meta, ¬ complete_points props meta) →
        ∃ msg, get_point_metadata' lat lon w = (w', Raise (ValueError msg))))
  ∧ (∀ exc, points_request lat lon w = (w', Raise exc) →
       get_point_metadata' lat lon w = (w', Raise exc)).
Proof.
  split.
  - intros props Hreq. split.
    + intros meta. split; [| by apply get_point_metadata_Ok].
      unfold NwsFetch.get_point_metadata, io_bind. rewrite Hreq.
      destruct (gridId props) as [gid |] eqn:H1; [| discriminate].
      destruct (gridX props) as [gx |] eqn:H2; [| discriminate].
      destruct (gridY props) as [gy |] eqn:H3; [| discriminate].
      destruct (forecastGridData props) as [url |] eqn:H4; [| discriminate].
      destruct (nonempty gid) eqn:H5, (nonempty url) eqn:H6; try discriminate.
      intros [= <-]. apply nonempty_ne in H5, H6. by repeat split.
    + intros Hnone. unfold NwsFetch.get_point_metadata, io_bind. rewrite Hreq.
      destruct (gridId props) as [gid |] eqn:H1; [| by eexists].
      destruct (gridX props) as [gx |] eqn:H2; [| by eexists].
      destruct (gridY props) as [gy |] eqn:H3; [| by eexists].
      destruct (forecastGridData props) as [url |] eqn:H4; [| by eexists].
      destruct (nonempty gid) eqn:H5, (nonempty url) eqn:H6; try by eexists.
      exfalso. apply nonempty_ne in H5, H6.
      apply (Hnone {| grid_id := gid; grid_x := gx; grid_y := gy;
                      forecast_url := url |}).
      by repeat split.
  - intros exc Hreq. unfold NwsFetch.get_point_metadata, io_bind.
    by rewrite Hreq.
Qed.

#[local] Abbreviation kept := (kept_as py_float fromisoformat).
#[local] Abbreviation float_rejects := (rejected py_float fromisoformat).

Lemma qpf_of_item_cases item :
  (qpf_of_item py_float fromisoformat item = Ok None
   ∧ (∀ e, ¬ kept item e) ∧ (∀ exc, ¬ float_rejects item exc))
  ∨ (∃ e, qpf_of_item py_float fromisoformat item = Ok (Some e)
        ∧ kept item e ∧ (∀ e', kept item e' → e' = e) ∧ well_formed e
        ∧ (∀ exc, ¬ float_rejects item exc))
  ∨ (∃ exc, qpf_of_item py_float fromisoformat item = Raise exc
        ∧ float_rejects item exc ∧ (∀ e, ¬ kept item e)).
Proof.
  unfold qpf_of_item, kept_as, rejected.
  destruct (validTime item) as [vt |] eqn:Hvt.
  2:{ left. split; [done |].
      split; [intros e (? & ? & ? & ? & ? & ? & _) |
              intros exc (? & ? & ? & ? & ? & _)]; discriminate. }
  destruct (item_value item) as [v |] eqn:Hv.
  2:{ left. split; [done |].
      split; [intros e (? & ? & ? & ? & ? & _ & ? & _) |
              intros exc (? & ? & ? & ? & _ & ? & _)]; discriminate. }
  destruct (_parse_valid_time py_float fromisoformat vt) as [[dt d] | pe] eqn:Hp.
  2:{ left. split; [done |].
      split; [intros e (? & ? & ? & ? & ? & [= <-] & _ & ? & _) |
              intros exc (? & ? & ? & ? & [= <-] & _ & ? & _)]; congruence. }
  destruct (float_of_json py_float v) as [q | fe] eqn:Hf.
  - right. left. eexists. split; [reflexivity |]. split; [| split; [| split]].
    + by exists vt, v, dt, d, q.
    + intros e' (? & ? & ? & ? & ? & [= <-] & [= <-] & Hp' & Hf' & ->).
      rewrite Hp in Hp'. rewrite Hf in Hf'. by simplify_eq.
    + exists dt, d, q. repeat split. by eapply parse_valid_time_aware.
    + intros exc (? & ? & ? & ? & [= <-] & [= <-] & _ & Hf').
      rewrite Hf in Hf'. discriminate.
  - right. right. exists fe. split; [reflexivity |]. split.
    + by exists vt, v, dt, d.
    + intros e (? & ? & ? & ? & ? & [= <-] & [= <-] & _ & Hf' & _).
      rewrite Hf in Hf'. discriminate.
Qed.

Lemma qpf_step_raise exc items :
  foldl (qpf_step py_float fromisoformat) (Raise exc) items = Raise exc.
Proof. by induction items. Qed.

Lemma qpf_fold items : ∀ acc,
  Forall (fun item => ∀ exc, ¬ float_rejects item exc) items →
  ∃ entries,
    foldl (qpf_step py_float fromisoformat) (Ok acc) items = Ok (acc ++ entries)%list
    ∧ Forall well_formed entries
    ∧ (∀ e, e ∈ entries ↔ ∃ item, item ∈ items ∧ kept item e).
Proof.
  induction items as [| item items IH]; intros acc Hall.
  { exists []. rewrite app_nil_r. split; [done |]. split; [done |].
    intros e. split; [by intros ?%elem_of_nil |].
    by intros (item & ?%elem_of_nil & _). }
  apply Forall_cons in Hall as [Hitem Hall]. cbn [foldl].
  unfold qpf_step at 2. cbn [mbind result_bind].
  destruct (qpf_of_item_cases item)
    as [(Hq & Hno & _) | [(e0 & Hq & Hk & Huniq & Hwf & _) | (exc & _ & Hrej & _)]].
  - rewrite Hq. cbn [mbind result_bind].
    destruct (IH acc Hall) as (entries & Hfold & Hwf & Hmem).
    exists entries. split; [done |]. split; [done |].
    intros e. rewrite Hmem. split.
    + intros (i & Hi & Hke). exists i. split; [by apply list_elem_of_further | done].
    + intros (i & Hi & Hke). apply elem_of_cons in Hi as [-> | Hi].
      * by destruct (Hno e).
      * by exists i.
  - rewrite Hq. cbn [mbind result_bind].
    destruct (IH (acc ++ [e0])%list Hall) as (entries & Hfold & Hwfs & Hmem).
    exists (e0 :: entries). split; [| split].
    + rewrite Hfold. by rewrite <- app_assoc.
    + by constructor.
    + intros e. rewrite elem_of_cons, Hmem. split.
      * intros [-> | (i & Hi & Hke)].
        -- exists item. split; [apply list_elem_of_here | done].
        -- exists i. split; [by apply list_elem_of_further | done].
      * intros (i & Hi & Hke). apply elem_of_cons in Hi as [-> | Hi].
        -- left. by apply Huniq.
        -- right. by exists i.
  - by destruct (Hitem exc).
Qed.

Lemma qpf_fold_raise items : ∀ acc exc,
  foldl (qpf_step py_float fromisoformat) (Ok acc) items = Raise exc →
  ∃ item, item ∈ items ∧ float_rejects item exc.
Proof.
  induction items as [| item items IH]; intros acc exc H; [discriminate |].
  cbn [foldl] in H. unfold qpf_step at 2 in H. cbn [mbind result_bind] in H.
  destruct (qpf_of_item_cases item)
    as [(Hq & _) | [(e0 & Hq & _) | (exc0 & Hq & Hrej & _)]];
    rewrite Hq in H; cbn [mbind result_bind] in H.
  - destruct (IH _ _ H) as (i & Hi & Hr).
    exists i. split; [by apply list_elem_of_further | done].
  - destruct (IH _ _ H) as (i & Hi & Hr).
    exists i. split; [by apply list_elem_of_further | done].
  - rewrite qpf_step_raise in H. injection H as <-.
    exists item. split; [apply list_elem_of_here | done].
Qed.

Lemma qpf_fold_returns items : ∀ acc entries,
  foldl (qpf_step py_float fromisoformat) (Ok acc) items = Ok entries →
  Forall (fun item => ∀ exc, ¬ float_rejects item exc) items.
Proof.
  induction items as [| item items IH]; intros acc entries H; [done |].
  cbn [foldl] in H. unfold qpf_step at 2 in H. cbn [mbind result_bind] in H.
  destruct (qpf_of_item_cases item)
    as [(Hq & _ & Hno) | [(e0 & Hq & _ & _ & _ & Hno) | (exc0 & Hq & _)]];
    rewrite Hq in H; cbn [mbind result_bind] in H.
  - constructor; [done | by eapply IH].
  - constructor; [done | by eapply IH].
  - by rewrite qpf_step_raise in H.
Qed.

Lemma periods_well_formed entries pop0 raw0 :
  Forall well_formed entries →
  length (periods {| qpf := Some entries; pop := pop0; raw := raw0 |})
  = length entries.
Proof.
  unfold periods. cbn [qpf from_option id].
  induction 1 as [| e l (s & d & v & Hs & _ & Hd & Hv) _ IH]; [done |].
  assert (is_Some (period_of_entry e)) as [p Hp].
  { unfold period_of_entry. rewrite Hs, Hd, Hv. by eexists. }
  cbn [omap list_omap]. rewrite Hp. cbn [length]. by rewrite IH.
Qed.

Lemma fetch_nws_forecast_payload url w w' payload :
  forecast_request url w = (w', Ok payload) →
  NwsFetch.fetch_nws_forecast py_float fromisoformat World forecast_request url w
  = (w', forecast_of_payload py_float fromisoformat payload).
Proof.
  intros Hreq. unfold NwsFetch.fetch_nws_forecast, io_bind, io_lift.
  by rewrite Hreq.
Qed.

Lemma forecast_of_payload_Ok payload fc :
  forecast_of_payload py_float fromisoformat payload = Ok fc →
  raw fc = Some payload
  ∧ ∃ entries,
      foldl (qpf_step py_float fromisoformat) (Ok [])
        (quantitativePrecipitation payload) = Ok entries
      ∧ qpf fc = Some entries.
Proof.
  unfold forecast_of_payload.
  destruct (foldl _ _ _) as [entries |]; [| discriminate].
  intros [= <-]. split; [done |]. by exists entries.
Qed.


Lemma add_contribution_fold_raise now l : ∀ acc exc,
  foldl (add_contribution (window_start now) (window_end now)) (Ok acc) l
  = Raise exc →
  exc = OverflowError "date value out of range".
Proof.
  induction l as [| e l IH]; intros acc exc H; [discriminate |].
  cbn [foldl] in H. rewrite add_contribution_Ok in H.
  destruct (entry_overflows e) eqn:He.
  - rewrite (qpf_contribution_overflow _ _ _ He) in H.
    rewrite add_contribution_raise in H. by injection H as <-.
  - destruct (period_of_entry e) as [p |] eqn:Hp.
    + destruct (qpf_contribution_period now e p Hp He)
        as [[_ Hc] | (_ & _ & mm & Hc & _)]; rewrite Hc in H; by eapply IH.
    + rewrite (qpf_contribution_incomplete _ _ _ Hp) in H. by eapply IH.
Qed.

Lemma compute_72h_rain_mm_raises now fc exc :
  compute_72h_rain_mm now fc = Raise exc →
  exc = OverflowError "date value out of range".
Proof.
  rewrite compute_72h_rain_mm_window.
  destruct (overflows (window_start now) (72 * us_per_hour)).
  - by intros [= <-].
  - apply add_contribution_fold_raise.
Qed.


End ForecastFetching.

Lemma get_point_metadata_complete_witness :
  NwsFetch.get_point_metadata unit (serve_points sample_points)
    (77 # 2)%Q (-243 # 2)%Q tt
  = (tt, Ok sample_meta).
Proof.
  destruct (get_point_metadata_complete unit (serve_points sample_points)
              (77 # 2)%Q (-243 # 2)%Q tt tt) as [H _].
  destruct (H sample_points eq_refl) as [Hiff _].
  apply Hiff. by repeat split.
Defined.

Lemma sample_forecast_not_rejected :
  Forall (fun item => ∀ exc,
            ¬ rejected Sample.decimal_float Sample.iso_datetime item exc)
    (quantitativePrecipitation sample_forecast_payload).
Proof.
  unfold sample_forecast_payload. cbn [quantitativePrecipitation].
  repeat (apply Forall_cons; split; [| ]); [.. | apply Forall_nil_2];
    intros exc (vt & v & dt & d & [= <-] & [= <-] & Hp & Hf); discriminate.
Qed.


(** A payload whose second item holds a list where a number is expected:
    [float] raises [TypeError], and the item before it is lost with it. *)
Example fetch_nws_forecast_bad_value :
  ∃ msg,
    NwsFetch.fetch_nws_forecast Sample.decimal_float Sample.iso_datetime unit
      (Sample.serve
         {| quantitativePrecipitation :=
              [ {| validTime := Some "2024-02-10T12:00:00+00:00/PT6H";
                   item_value := Some (JNumber 12) |};
                {| validTime := Some "2024-02-10T18:00:00+00:00/PT6H";
                   item_value := Some JList |} ];
            probabilityOfPrecipitation := [] |})
      "https://api.weather.gov/x" tt
    = (tt, Raise (TypeError msg)).
Proof. eexists. reflexivity. Qed.


Example forecast_for_gauge_sample_total :
  ∃ r,
    NwsFetch.forecast_for_gauge Sample.decimal_float Sample.iso_datetime unit
      (serve_points sample_points) (Sample.serve sample_forecast_payload)
      Sample.fixed_clock "11425500" (77 # 2)%Q (-243 # 2)%Q tt
    = (tt, Ok r)
    ∧ (r_rain_72h_mm r == 12)%Q.
Proof. eexists. split; [reflexivity |]. by vm_compute. Qed.

(** ** Stage ingestion: what a reading holds, unusable series, the timestamp *)

Section UsgsReading.

Variable py_float : string → option Q.
Variable World : Type.
Variable usgs_request : string → io World usgs_payload.

#[local] Abbreviation fetch_reading :=
  (UsgsFetch.fetch_usgs_gauge_data py_float World usgs_request).
#[local] Abbreviation step := (UsgsFetch.series_step py_float).

(** X17. A reading [fetch_usgs_gauge_data] returns comes from a payload with at
    least one time series, carries the identifier asked for and the payload
    itself, and holds a stage or a discharge (never neither). *)
Theorem fetch_usgs_gauge_data_reading gid w w' r :
  UsgsFetch.fetch_usgs_gauge_data py_float World usgs_request gid w = (w', Ok r) →
  ∃ payload,
    usgs_request gid w = (w', Ok payload)
    ∧ timeSeries payload ≠ []
    ∧ u_gauge_id r = gid ∧ u_raw r = payload
    ∧ (is_Some (u_stage_ft r) ∨ is_Some (u_discharge_cfs r)).
Proof.
  unfold UsgsFetch.fetch_usgs_gauge_data. intros H.
  apply io_bind_Ok in H as (w1 & payload & Hreq & H).
  unfold io_lift in H. injection H as <- H. exists payload.
  split; [done |]. unfold UsgsFetch.reading_of_payload in H.
  destruct (timeSeries payload) as [| s0 ts]; [discriminate |].
  split; [done |].
  destruct (UsgsFetch.stage_ft _) as [st |] eqn:Hst,
           (UsgsFetch.discharge_cfs _) as [di |] eqn:Hdi;
    try discriminate; injection H as <-; cbn; rewrite ?Hst, ?Hdi;
    repeat split; eauto.
Qed.

Lemma series_step_unusable acc s : unusable py_float s → step acc s = acc.
Proof.
  unfold unusable, UsgsFetch.series_step. intros [[H65 H60] | H].
  - destruct (values s) as [| entries more]; [done |].
    destruct (last entries) as [e |]; [| done].
    destruct (UsgsFetch.float_of_sample py_float e); [| done].
    rewrite !bool_decide_eq_false_2 by done. done.
  - destruct (values s) as [| entries more]; [done |].
    destruct (last entries) as [e |]; [| done]. by rewrite H.
Qed.

Lemma series_fold_unusable l : ∀ acc,
  Forall (unusable py_float) l → foldl step acc l = acc.
Proof.
  induction l as [| s l IH]; intros acc Hl; [done |].
  apply Forall_cons in Hl as [Hs Hl]. cbn [foldl].
  by rewrite (series_step_unusable _ _ Hs), IH.
Qed.

(** X18. A payload without time series, or whose series are all passed over
    (another parameter code, no samples, or a last sample whose value is not
    a number, even when earlier samples are), makes [fetch_usgs_gauge_data]
    raise [ValueError] with the message of the case; an exception of the
    request passes through unchanged. *)
Theorem fetch_usgs_gauge_data_no_value gid w w' :
  (∀ payload, usgs_request gid w = (w', Ok payload) →
     Forall (unusable py_float) (timeSeries payload) →
     fetch_reading gid w
     = (w', Raise (ValueError
          (if bool_decide (timeSeries payload = [])
           then "No timeSeries data returned for gauge " ++ gid
           else "Missing stage/discharge values for gauge " ++ gid))))
  ∧ (∀ exc, usgs_request gid w = (w', Raise exc) →
       fetch_reading gid w = (w', Raise exc)).
Proof.
  split.
  - intros payload Hreq Hall.
    rewrite (fetch_usgs_gauge_data_Ok _ _ _ _ _ _ _ Hreq).
    unfold UsgsFetch.reading_of_payload.
    destruct (timeSeries payload) as [| s0 ts]; [done |].
    by rewrite (series_fold_unusable _ _ Hall).
  - intros exc Hreq. unfold UsgsFetch.fetch_usgs_gauge_data, io_bind.
    by rewrite Hreq.
Qed.

Lemma reading_of_payload_nonempty gid payload :
  timeSeries payload ≠ [] →
  UsgsFetch.reading_of_payload py_float gid payload
  = let acc := foldl step UsgsFetch.no_reading (timeSeries payload) in
    match UsgsFetch.stage_ft acc, UsgsFetch.discharge_cfs acc with
    | None, None =>
        Raise (ValueError ("Missing stage/discharge values for gauge " ++ gid))
    | _, _ =>
        Ok {| u_gauge_id := gid; u_timestamp := UsgsFetch.latest_ts acc;
              u_stage_ft := UsgsFetch.stage_ft acc;
              u_discharge_cfs := UsgsFetch.discharge_cfs acc;
              u_raw := payload |}
    end.
Proof.
  intros Hne. unfold UsgsFetch.reading_of_payload.
  by destruct (timeSeries payload).
Qed.

(** X19. The timestamp of a reading is the [dateTime] of the last sample of the
    last usable series, whatever its parameter; when that sample has no
    [dateTime] or an empty one, the timestamp of the series before it is
    kept. *)
Theorem fetch_usgs_gauge_data_timestamp gid w w' payload pre s entries e more code v :
  code = "00065" ∨ code = "00060" →
  usgs_request gid w = (w', Ok payload) →
  timeSeries payload = (pre ++ [s])%list →
  UsgsFetch.param_code s = Some code →
  values s = (entries ++ [e])%list :: more →
  UsgsFetch.float_of_sample py_float e = Some v →
  ∃ r, fetch_reading gid w = (w', Ok r)
     ∧ u_timestamp r
       = str_or (sample_dateTime e)
           (UsgsFetch.latest_ts (foldl step UsgsFetch.no_reading pre))
     ∧ (∀ ts, sample_dateTime e = Some ts → ts ≠ "" → u_timestamp r = Some ts).
Proof.
  intros Hc Hreq Hts Hp Hv Hf.
  rewrite (fetch_usgs_gauge_data_Ok _ _ _ _ _ _ _ Hreq).
  rewrite reading_of_payload_nonempty by (rewrite Hts; by destruct pre).
  rewrite Hts, foldl_app. cbn [foldl].
  set (acc := foldl step UsgsFetch.no_reading pre).
  assert (step acc s
          = if bool_decide (code = "00065")
            then {| UsgsFetch.stage_ft := Some v;
                    UsgsFetch.discharge_cfs := UsgsFetch.discharge_cfs acc;
                    UsgsFetch.latest_ts :=
                      str_or (sample_dateTime e) (UsgsFetch.latest_ts acc) |}
            else {| UsgsFetch.stage_ft := UsgsFetch.stage_ft acc;
                    UsgsFetch.discharge_cfs := Some v;
                    UsgsFetch.latest_ts :=
                      str_or (sample_dateTime e) (UsgsFetch.latest_ts acc) |})
    as ->.
  { unfold UsgsFetch.series_step. rewrite Hp, Hv, last_snoc, Hf.
    destruct Hc as [-> | ->]; by repeat (case_bool_decide; simplify_eq). }
  assert (∀ ts : string, sample_dateTime e = Some ts → ts ≠ "" →
            str_or (sample_dateTime e) (UsgsFetch.latest_ts acc) = Some ts)
    as Hstr.
  { intros ts -> Hne. by destruct ts. }
  case_bool_decide; cbn.
  - eexists. split; [reflexivity |]. by split.
  - destruct (UsgsFetch.stage_ft acc); eexists; (split; [reflexivity |]);
      by split.
Qed.

End UsgsReading.

Lemma fetch_usgs_gauge_data_reading_witness :
  ∃ r,
    UsgsFetch.fetch_usgs_gauge_data Sample.decimal_float unit
      (Sample.serve sample_usgs_payload) "11425500" tt = (tt, Ok r)
    ∧ u_gauge_id r = "11425500" ∧ u_raw r = sample_usgs_payload
    ∧ (is_Some (u_stage_ft r) ∨ is_Some (u_discharge_cfs r)).
Proof.
  eexists. split; [reflexivity |].
  destruct (fetch_usgs_gauge_data_reading Sample.decimal_float unit
              (Sample.serve sample_usgs_payload) "11425500" tt tt _ eq_refl)
    as (payload & Hreq & _ & Hid & Hraw & Hval).
  injection Hreq as <-. by repeat split.
Defined.

(** The assertions of [test_fetch_usgs_gauge_data_parses_values]. *)
Example fetch_usgs_gauge_data_test :
  ∃ r stage discharge,
    UsgsFetch.fetch_usgs_gauge_data Sample.decimal_float unit
      (Sample.serve sample_usgs_payload) "11425500" tt = (tt, Ok r)
    ∧ u_gauge_id r = "11425500"
    ∧ u_stage_ft r = Some stage ∧ (stage == 17 # 2)%Q
    ∧ u_discharge_cfs r = Some discharge ∧ (discharge == 15000)%Q
    ∧ u_timestamp r ≠ None.
Proof.
  eexists _, _, _. split; [reflexivity |]. split; [reflexivity |].
  split; [reflexivity |]. split; [by vm_compute |].
  split; [reflexivity |]. split; [by vm_compute | discriminate].
Qed.

Lemma fetch_usgs_gauge_data_no_value_witness :
  UsgsFetch.fetch_usgs_gauge_data Sample.decimal_float unit
    (Sample.serve iced_usgs_payload) "11425500" tt
  = (tt, Raise (ValueError "Missing stage/discharge values for gauge 11425500")).
Proof.
  destruct (fetch_usgs_gauge_data_no_value Sample.decimal_float unit
              (Sample.serve iced_usgs_payload) "11425500" tt tt) as [H _].
  apply (H iced_usgs_payload eq_refl).
  apply Forall_cons. split; [| apply Forall_nil_2].
  right. reflexivity.
Defined.

Lemma fetch_usgs_gauge_data_timestamp_witness :
  ∃ r,
    UsgsFetch.fetch_usgs_gauge_data Sample.decimal_float unit
      (Sample.serve sample_usgs_payload) "11425500" tt = (tt, Ok r)
    ∧ u_timestamp r = Some "2024-02-10T12:00:00.000-08:00".
Proof.
  destruct (fetch_usgs_gauge_data_timestamp Sample.decimal_float unit
              (Sample.serve sample_usgs_payload) "11425500" tt tt
              sample_usgs_payload
              [ {| variableCode := [Some "00065"];
                   values := [ [ {| sample_value := Some "8.5";
                                    sample_dateTime := Some "2024-02-10T12:00:00.000-08:00" |} ] ] |} ]
              {| variableCode := [Some "00060"];
                 values := [ [ {| sample_value := Some "15000";
                                  sample_dateTime := Some "2024-02-10T12:00:00.000-08:00" |} ] ] |}
              []
              {| sample_value := Some "15000";
                 sample_dateTime := Some "2024-02-10T12:00:00.000-08:00" |}
              [] "00060" _
              (or_intror eq_refl) eq_refl eq_refl eq_refl eq_refl eq_refl)
    as (r & Hr & _ & Hts).
  exists r. split; [exact Hr |].
  by apply (Hts "2024-02-10T12:00:00.000-08:00").
Defined.

(** ** The loops over the gauges *)

Section UsgsIsolation.

Variable py_float : string → option Q.
Variable World : Type.
Variable usgs_request : string → io World usgs_payload.
Variable read_config : string → io World config_doc.

(** What the request for an identifier answers, whatever the state of the
    world. *)
Variable answer : string → result usgs_payload.
Hypothesis usgs_request_answer : ∀ k w, ∃ w', usgs_request k w = (w', answer k).

Lemma fetch_step_answer w results g :
  ∃ w', UsgsFetch.fetch_step py_float World usgs_request (w, results) g
        = (w', if nonempty (gauge_id_of g)
               then <[gauge_id_of g := usgs_entry_of py_float answer (gauge_id_of g)]> results
               else results).
Proof.
  unfold UsgsFetch.fetch_step, usgs_entry_of.
  destruct (nonempty (gauge_id_of g)); [| by exists w].
  unfold UsgsFetch.fetch_usgs_gauge_data, io_bind, io_lift.
  destruct (usgs_request_answer (gauge_id_of g) w) as [w' ->].
  exists w'. destruct (answer (gauge_id_of g)) as [payload | exc]; cbn; [| done].
  by destruct (UsgsFetch.reading_of_payload py_float (gauge_id_of g) payload).
Qed.

Lemma fetch_fold_answer gauges : ∀ w results,
  ∃ w' results',
    foldl (UsgsFetch.fetch_step py_float World usgs_request) (w, results) gauges
    = (w', results')
    ∧ ∀ k, results' !! k
           = if decide (k ∈ usgs_keys gauges)
             then Some (usgs_entry_of py_float answer k)
             else results !! k.
Proof.
  induction gauges as [| g gauges IH]; intros w results.
  - exists w, results. split; [done |]. intros k.
    rewrite decide_False; [done |]. apply not_elem_of_nil.
  - cbn [foldl]. destruct (fetch_step_answer w results g) as [w1 ->].
    destruct (IH w1 (if nonempty (gauge_id_of g)
                     then <[gauge_id_of g := usgs_entry_of py_float answer (gauge_id_of g)]> results
                     else results)) as (w' & results' & -> & Hlook).
    exists w', results'. split; [done |]. intros k. rewrite Hlook.
    unfold usgs_keys. rewrite fmap_cons, filter_cons.
    fold (usgs_keys gauges).
    destruct (nonempty (gauge_id_of g)) eqn:Hne.
    + rewrite (decide_True (P := true = true)) by done.
      destruct (decide (k ∈ usgs_keys gauges)) as [Hin | Hnin].
      * rewrite decide_True; [done |]. by right.
      * destruct (decide (gauge_id_of g = k)) as [<- | Hk].
        -- rewrite decide_True by left. by rewrite lookup_insert_eq.
        -- rewrite lookup_insert_ne by done.
           rewrite decide_False; [done |].
           intros [? | ?]%elem_of_cons; congruence.
    + rewrite (decide_False (P := false = true)) by done. done.
Qed.

(** X20. Isolation, for requests whose answer does not depend on the calls made
    before: the entry of every configured gauge with a non-empty identifier
    is determined by the answer to its own request (a reading when the
    payload yields one, the error marker of the exception otherwise), whatever
    happens to the other gauges and however often the identifier is listed;
    no other key has an entry. *)
Theorem fetch_all_gauges_independent path w w1 cfg :
  read_config path w = (w1, Ok cfg) →
  ∃ w2 results,
    UsgsFetch.fetch_all_gauges py_float World usgs_request read_config path w
    = (w2, Ok results)
    ∧ ∀ k, results !! k
           = if decide (k ∈ usgs_keys (default [] (cfg_gauges cfg)))
             then Some (usgs_entry_of py_float answer k)
             else None.
Proof.
  intros Hcfg.
  unfold UsgsFetch.fetch_all_gauges, UsgsFetch._load_gauge_config, io_bind, io_ret.
  rewrite Hcfg.
  destruct (fetch_fold_answer (default [] (cfg_gauges cfg)) w1 ∅)
    as (w2 & results & -> & Hlook).
  exists w2, results. split; [done |]. intros k. rewrite Hlook.
  by rewrite lookup_empty.
Qed.

End UsgsIsolation.

Lemma fetch_all_gauges_independent_witness :
  ∃ results,
    UsgsFetch.fetch_all_gauges Sample.decimal_float unit sample_request
      (Sample.config_of sample_gauges) "config/sacramento_gauges.yml" tt
    = (tt, Ok results)
    ∧ results !! "11447650"
      = Some (UsgsError "11447650" "404 Client Error")
    ∧ (∃ r, results !! "11425500" = Some (UsgsReading r))
    ∧ results !! "11336600" = None.
Proof.
  destruct (fetch_all_gauges_independent Sample.decimal_float unit sample_request
              (Sample.config_of sample_gauges) sample_answer
              (fun k w => ex_intro _ w eq_refl)
              "config/sacramento_gauges.yml" tt tt _ eq_refl)
    as ([] & results & Hrun & Hlook).
  exists results. split; [exact Hrun |].
  split; [| split].
  - rewrite Hlook. reflexivity.
  - rewrite Hlook. eexists. reflexivity.
  - rewrite Hlook. reflexivity.
Defined.

Section MissingIdentifier.

Variable py_float : string → option Q.
Variable fromisoformat : string → option datetime.
Variable World : Type.
Variable usgs_request : string → io World usgs_payload.
Variable points_request : Q → Q → io World points_payload.
Variable forecast_request : string → io World nws_payload.
Variable clock : World → World * Z.
Variable read_config : string → io World config_doc.

Lemma usgs_keys_elem g gauges :
  g ∈ gauges → gauge_id_of g ≠ "" → gauge_id_of g ∈ usgs_keys gauges.
Proof.
  intros Hg Hne. unfold usgs_keys. apply list_elem_of_filter.
  split; [by apply nonempty_ne |]. by apply list_elem_of_fmap_2.
Qed.

Lemma usgs_keys_nonempty gauges : "" ∉ usgs_keys gauges.
Proof. unfold usgs_keys. by intros [? _]%list_elem_of_filter. Qed.

Lemma forecast_keys_nonempty gauges : "" ∉ forecast_keys gauges.
Proof.
  unfold forecast_keys.
  intros (g & Hid & [Hg _]%list_elem_of_filter)%list_elem_of_fmap.
  unfold forecast_guard in Hg. rewrite <- Hid in Hg. by destruct (g_latitude g).
Qed.

(** X21. The guard on the identifier only catches the empty string: a configured
    gauge without an [id] key, or with a null one, is not skipped but
    requested and recorded under the identifier ["None"], the text [str]
    gives a missing value; and no mapping ever holds the empty key. *)
Theorem missing_id_is_None path w w1 cfg g :
  read_config path w = (w1, Ok cfg) →
  g ∈ default [] (cfg_gauges cfg) →
  g_id g = None ∨ g_id g = Some YNull →
  (∃ w2 results entry,
     UsgsFetch.fetch_all_gauges py_float World usgs_request read_config path w
     = (w2, Ok results)
     ∧ results !! "None" = Some entry ∧ usgs_entry_gauge_id entry = "None"
     ∧ results !! "" = None)
  ∧ (∃ w2 results,
       NwsFetch.fetch_all_gauges_forecast py_float fromisoformat World
         points_request forecast_request clock read_config path w
       = (w2, Ok results)
       ∧ (is_Some (g_latitude g) → is_Some (g_longitude g) →
          ∃ entry, results !! "None" = Some entry
                 ∧ rain_entry_gauge_id entry = "None")
       ∧ results !! "" = None).
Proof.
  intros Hcfg Hg Hid.
  assert (gauge_id_of g = "None") as Hnone.
  { unfold gauge_id_of. by destruct Hid as [-> | ->]. }
  split.
  - destruct (fetch_all_gauges_entries py_float World usgs_request read_config
                path w w1 cfg Hcfg) as (w2 & results & Hrun & Hdom & Hkeyed).
    assert ("None" ∈ dom results) as [entry He]%elem_of_dom.
    { rewrite Hdom, elem_of_list_to_set, <- Hnone.
      apply usgs_keys_elem; [done |]. by rewrite Hnone. }
    exists w2, results, entry. split; [done |]. split; [done |].
    split; [by apply Hkeyed |].
    apply not_elem_of_dom. rewrite Hdom, elem_of_list_to_set.
    apply usgs_keys_nonempty.
  - destruct (fetch_all_gauges_forecast_entries py_float fromisoformat World
                points_request forecast_request clock read_config
                path w w1 cfg Hcfg) as (w2 & results & Hrun & Hdom & Hkeyed).
    exists w2, results. split; [done |]. split.
    + intros Hlat Hlon.
      assert ("None" ∈ dom results) as [entry He]%elem_of_dom.
      { rewrite Hdom, elem_of_list_to_set, <- Hnone.
        unfold forecast_keys. apply list_elem_of_fmap_2, list_elem_of_filter.
        split; [| done]. unfold forecast_guard.
        rewrite Hnone, !bool_decide_eq_true_2 by done. done. }
      exists entry. split; [done |]. by apply Hkeyed.
    + apply not_elem_of_dom. rewrite Hdom, elem_of_list_to_set.
      apply forecast_keys_nonempty.
Qed.

End MissingIdentifier.

Lemma missing_id_is_None_witness :
  ∃ results,
    UsgsFetch.fetch_all_gauges Sample.decimal_float unit sample_request
      (Sample.config_of sample_gauges) "config/sacramento_gauges.yml" tt
    = (tt, Ok results)
    ∧ is_Some (results !! "None") ∧ results !! "" = None.
Proof.
  destruct (missing_id_is_None Sample.decimal_float Sample.iso_datetime unit
              sample_request Sample.offline_points Sample.offline
              Sample.fixed_clock (Sample.config_of sample_gauges)
              "config/sacramento_gauges.yml" tt tt _
              {| g_id := None; g_latitude := None; g_longitude := None;
                 g_flood_stage_ft := None |} eq_refl)
    as [([] & results & entry & Hrun & He & _ & Hempty) _].
  - right. right. left.
  - by left.
  - exists results. split; [exact Hrun |]. split; [by exists entry | exact Hempty].
Defined.

(** ** [run]: the whole pipeline *)

Section RunReport.

Variable py_float : string → option Q.
Variable fromisoformat : string → option datetime.
Variable World : Type.
Variable usgs_request : string → io World usgs_payload.
Variable points_request : Q → Q → io World points_payload.
Variable forecast_request : string → io World nws_payload.
Variable clock : World → World * Z.
Variable read_config : string → io World config_doc.
Variable read_thresholds : string → io World (gmap string (gmap string Q)).

#[local] Abbreviation run' :=
  (Cli.run py_float fromisoformat World usgs_request points_request
     forecast_request clock read_config read_thresholds).

Lemma classify_all_no_rain usgs_data rainfall_data gauge_config th res k :
  classify_all usgs_data rainfall_data gauge_config th = Ok res →
  k ∈ dom usgs_data → rainfall_data !! k = None →
  ∃ a, res !! k = Some a ∧ rain_risk a = "UNKNOWN" ∧ gauge_id a = k.
Proof.
  intros H [obs Hk]%elem_of_dom Hrain. unfold classify_all in H.
  apply elem_of_map_to_list in Hk.
  destruct (classify_fold_entry _ _ _ _ _ _ _ _
              (NoDup_fst_map_to_list usgs_data) Hk H) as (a & Ha & Hc).
  exists a. split; [done |]. rewrite Hrain in Hc.
  destruct (classify_gauge_fields _ _ _ _ _ _ Hc)
    as (rt & st & _ & _ & Hr & _ & _ & Hid).
  split; [| done]. cbn in Hr. by injection Hr as <-.
Qed.

(** X22. With a gauge file that loads and complete thresholds, [run] returns a
    report and never raises, whatever the requests do: the assessments and
    the stage entries cover exactly the configured gauges with a non-empty
    identifier, the rainfall entries those that also have coordinates, and a
    gauge the forecast loop skipped is still assessed, with a rainfall risk
    of UNKNOWN. *)
Theorem run_report gpath tpath cfg th :
  (∀ w, ∃ w', read_config gpath w = (w', Ok cfg)) →
  (∀ w, ∃ w', read_thresholds tpath w = (w', Ok th)) →
  complete th →
  ∀ w, ∃ w' out,
    run' gpath tpath w = (w', Ok out)
    ∧ dom (Cli.out_gauges out)
      = list_to_set (usgs_keys (default [] (cfg_gauges cfg)))
    ∧ dom (Cli.out_usgs out)
      = list_to_set (usgs_keys (default [] (cfg_gauges cfg)))
    ∧ dom (Cli.out_rainfall out)
      = list_to_set (forecast_keys (default [] (cfg_gauges cfg)))
    ∧ (∀ k, k ∈ dom (Cli.out_gauges out) → Cli.out_rainfall out !! k = None →
         ∃ a, Cli.out_gauges out !! k = Some a
            ∧ rain_risk a = "UNKNOWN" ∧ gauge_id a = k).
Proof.
  intros Hcfg Hth Hcomplete w. unfold Cli.run.
  destruct (Hcfg w) as [w1 H1]. unfold io_bind at 1. rewrite H1.
  destruct (Hth w1) as [w2 H2]. unfold io_bind at 1. rewrite H2.
  destruct (Hcfg w2) as [w3 H3].
  destruct (fetch_all_gauges_entries py_float World usgs_request read_config
              gpath w2 w3 cfg H3) as (w4 & usgs_data & Hu & Hudom & _).
  unfold io_bind at 1. rewrite Hu.
  destruct (Hcfg w4) as [w5 H5].
  destruct (fetch_all_gauges_forecast_entries py_float fromisoformat World
              points_request forecast_request clock read_config
              gpath w4 w5 cfg H5) as (w6 & rainfall & Hr & Hrdom & _).
  unfold io_bind at 1. rewrite Hr.
  destruct (classify_fold_total rainfall (flood_stage_lookup cfg) th
              (map_to_list usgs_data) Hcomplete ∅) as [risks Hrisks].
  fold (classify_all usgs_data rainfall cfg th) in Hrisks.
  unfold io_bind, io_lift, io_ret. rewrite Hrisks.
  eexists _, _. split; [reflexivity |]. cbn.
  assert (dom risks = dom usgs_data) as Hdom.
  { pose proof Hrisks as Hd. unfold classify_all in Hd.
    apply classify_fold_dom in Hd.
    rewrite Hd, dom_empty_L, (left_id_L ∅ (∪)).
    symmetry. apply leibniz_equiv, dom_alt. }
  split; [by rewrite Hdom |]. split; [done |]. split; [done |].
  intros k Hk Hnone. rewrite Hdom in Hk.
  by eapply classify_all_no_rain.
Qed.

End RunReport.

Lemma run_report_witness :
  ∃ out a,
    Cli.run Sample.decimal_float Sample.iso_datetime unit sample_request
      Sample.offline_points Sample.offline Sample.fixed_clock
      (Sample.config_of sample_gauges) (Sample.serve fixture_thresholds)
      "config/sacramento_gauges.yml" "config/thresholds.yml" tt
    = (tt, Ok out)
    ∧ Cli.out_rainfall out !! "11425500" = None
    ∧ Cli.out_gauges out !! "11425500" = Some a
    ∧ rain_risk a = "UNKNOWN".
Proof.
  assert (complete fixture_thresholds) as Hc.
  { exists (bands_of 0 50 150), (bands_of (7 # 10) (9 # 10) 1).
    split; [reflexivity |]. split; [reflexivity |].
    split; do 3 eexists; repeat split; reflexivity. }
  destruct (run_report Sample.decimal_float Sample.iso_datetime unit
              sample_request Sample.offline_points Sample.offline
              Sample.fixed_clock (Sample.config_of sample_gauges)
              (Sample.serve fixture_thresholds)
              "config/sacramento_gauges.yml" "config/thresholds.yml"
              {| cfg_gauges := Some sample_gauges |} fixture_thresholds
              (fun w => ex_intro _ w eq_refl) (fun w => ex_intro _ w eq_refl)
              Hc tt)
    as ([] & out & Hrun & Hg & _ & Hr & Hskip).
  assert (Cli.out_rainfall out !! "11425500" = None) as Hnone.
  { apply not_elem_of_dom. rewrite Hr. by vm_compute. }
  destruct (Hskip "11425500") as (a & Ha & Hrisk & _); [| exact Hnone |].
  - rewrite Hg. apply elem_of_list_to_set. right. left.
  - exists out, a. split; [exact Hrun |]. split; [exact Hnone |].
    split; [exact Ha | exact Hrisk].
Defined.
